(** * usecart: the Cart API client, request building and response mapping

    A shallow embedding of [src/usecart/_http.py], [_resources.py],
    [_errors.py], [_types.py] and [_client.py], and the properties the
    specification states about them.

    Conventions of the embedding:
    - a Python [str] is the list of its code points;
    - a Python exception is a value of [exn], and a computation that may
      raise has type [result A];
    - the mutable [HttpClient] object is passed and returned explicitly;
    - the two calls into urllib, [urllib.request.Request] and then
      [urllib.request.urlopen], are one [UrlOpen] node of an [io] program,
      whose continuation receives what they answer. *)

From Stdlib Require Import List NArith ZArith String Ascii Bool Lia.
From Stdlib Require Import DecimalString.
Import ListNotations.

Set Implicit Arguments.
Local Open Scope N_scope.

(** ** Python strings *)

Definition codepoint := N.

Definition pystr := list codepoint.

(** A literal of the source, written as a Rocq string of ASCII characters. *)
Definition lit (s : string) : pystr :=
  map N_of_ascii (list_ascii_of_string s).

Fixpoint pystr_eqb (a b : pystr) : bool :=
  match a, b with
  | [], [] => true
  | x :: a', y :: b' => (x =? y) && pystr_eqb a' b'
  | _, _ => false
  end.

(** [sep.join(parts)] *)
Fixpoint join (sep : pystr) (parts : list pystr) : pystr :=
  match parts with
  | [] => []
  | [p] => p
  | p :: rest => p ++ sep ++ join sep rest
  end.

(** [s.rstrip("/")]: every trailing slash is removed. *)
Fixpoint rstrip_slash (s : pystr) : pystr :=
  match s with
  | [] => []
  | c :: rest =>
      match rstrip_slash rest with
      | [] => if c =? 47 then [] else [c]
      | rest' => c :: rest'
      end
  end.

(** [str(n)] for an [int]: the decimal numeral. An interpreter with a
    digit limit (CPython since 3.11: 4300 digits unless set otherwise, and
    never under 640) raises [ValueError] on an int of more digits than the
    limit; [str_int] is what [str] writes below it. *)
Definition str_int (n : Z) : pystr :=
  lit (NilZero.string_of_int (Z.to_int n)).

(** [s.lower()], on the ASCII letters (the source lowers only the texts
    [True] and [False]). *)
Definition lower (s : pystr) : pystr :=
  map (fun c => if (65 <=? c) && (c <=? 90) then c + 32 else c) s.

(** ** JSON values, as [json.loads] returns them *)

#[warnings="-register-all"]
Inductive json : Type :=
| JNull                                  (* None *)
| JBool (b : bool)
| JInt (n : Z)
| JFloat (repr : pystr)                  (* a float, by the text repr() prints *)
| JStr (s : pystr)
| JList (items : list json)
| JObject (fields : list (pystr * json)).

(** [d.get(key, default)] on a dict. *)
Fixpoint dict_get (fields : list (pystr * json)) (key : pystr) (default : json) : json :=
  match fields with
  | [] => default
  | (k, v) :: rest => if pystr_eqb k key then v else dict_get rest key default
  end.

(** Truth value of an object in a condition ([if error:]). *)
Definition truthy (v : json) : bool :=
  match v with
  | JNull => false
  | JBool b => b
  | JInt n => negb (n =? 0)%Z
  | JFloat r => negb (pystr_eqb r (lit "0.0") || pystr_eqb r (lit "-0.0"))
  | JStr s => match s with [] => false | _ => true end
  | JList l => match l with [] => false | _ => true end
  | JObject d => match d with [] => false | _ => true end
  end.

(** ** The typed errors of [_errors.py] *)

Module Errors.

(** The attributes [CartApiError.__init__] sets. Nothing checks what the
    response body holds, so [message], [code] and [request_id] are JSON
    values; [JNull] is Python's [None]. *)
Record fields : Type := Fields {
  message : json;
  status : Z;
  code : json;
  request_id : json
}.

(** The three classes: the base class and its two subclasses. *)
Inductive t : Type :=
| Api (f : fields)
| Auth (f : fields)
| RateLimit (f : fields) (retry_after rate_limit rate_limit_remaining : option Z).

(** [CartApiError(message, status, code, request_id)] *)
Definition CartApiError (message : json) (status : Z) (code request_id : json) : t :=
  Api (Fields message status code request_id).

(** [CartAuthError(message, request_id)]:
    [super().__init__(message, 401, "auth_error", request_id)] *)
Definition CartAuthError (message request_id : json) : t :=
  Auth (Fields message 401 (JStr (lit "auth_error")) request_id).

(** [CartRateLimitError(message, request_id, retry_after, rate_limit,
    rate_limit_remaining)]:
    [super().__init__(message, 429, "rate_limit_exceeded", request_id)] *)
Definition CartRateLimitError (message request_id : json)
  (retry_after rate_limit rate_limit_remaining : option Z) : t :=
  RateLimit (Fields message 429 (JStr (lit "rate_limit_exceeded")) request_id)
            retry_after rate_limit rate_limit_remaining.

(** The attributes every instance has. *)
Definition base (e : t) : fields :=
  match e with
  | Api f | Auth f | RateLimit f _ _ _ => f
  end.

End Errors.

(** ** Exceptions and results *)

(** What an instance of [ValueError] was raised for; its message is made
    from it. *)
Inductive value_error : Type :=
| Message (msg : pystr)          (* raise ValueError(msg), in the source *)
| InvalidLiteral (text : pystr)  (* int(text), on a text it does not convert *)
| UnknownUrlType (url : pystr)   (* Request(url, ...), on a URL with no scheme *)
| IntegerTooLong.                (* json.loads, on an integer over the digit limit *)

(** The exceptions, by class. [ValueError] is one class, whoever raises
    it: the source, [int], [Request] or [json.loads]. (In Python
    [JSONDecodeError] and the two Unicode errors are subclasses of it.) *)
Inductive exn : Type :=
| CartError (e : Errors.t)       (* an instance of CartApiError or a subclass *)
| ValueError (v : value_error)
| AttributeError                 (* .get on an object that is not a dict *)
| JSONDecodeError                (* json.loads, on a text that is not JSON *)
| UnicodeDecodeError             (* bytes.decode("utf-8") *)
| UnicodeEncodeError             (* str.encode("utf-8"), inside quote *)
| RecursionError                 (* json.loads, on a text nested too deep *)
| ReadError                      (* whatever resp.read() raises: IncompleteRead, ... *)
| TransportError.                (* whatever urlopen raises that is no HTTPError:
                                    URLError, a timeout, the ValueError of
                                    http.client for a header it refuses, ... *)

(** The [ValueError] that [int(text)] raises. *)
Definition IntValueError (text : pystr) : exn := ValueError (InvalidLiteral text).

Inductive result (A : Type) : Type :=
| Return (a : A)
| Raise (e : exn).

Arguments Return {A} a.
Arguments Raise {A} e.

Definition bind {A B : Type} (c : result A) (k : A -> result B) : result B :=
  match c with
  | Return a => k a
  | Raise e => Raise e
  end.

Notation "x <- c ;; k" := (bind c (fun x => k))
  (at level 61, c at next level, right associativity).

(** [[f(x) for x in xs]], stopping at the first element that raises. *)
Fixpoint traverse {A B : Type} (f : A -> result B) (xs : list A) : result (list B) :=
  match xs with
  | [] => Return []
  | x :: rest =>
      y <- f x ;;
      ys <- traverse f rest ;;
      Return (y :: ys)
  end.

(** ** [urllib.parse.quote] *)

(** [str.encode("utf-8")] with [errors="strict"], one code point: a
    surrogate has no encoding, and no [str] holds a code point above
    U+10FFFF. *)
Definition utf8_encode_cp (c : codepoint) : option (list N) :=
  if c <? 0x80 then Some [c]
  else if c <? 0x800 then Some [0xC0 + c / 64; 0x80 + c mod 64]
  else if c <? 0x10000 then
    if (0xD800 <=? c) && (c <=? 0xDFFF) then None
    else Some [0xE0 + c / 4096; 0x80 + (c / 64) mod 64; 0x80 + c mod 64]
  else if c <? 0x110000 then
    Some [0xF0 + c / 262144; 0x80 + (c / 4096) mod 64;
          0x80 + (c / 64) mod 64; 0x80 + c mod 64]
  else None.

Fixpoint utf8_encode (s : pystr) : option (list N) :=
  match s with
  | [] => Some []
  | c :: rest =>
      match utf8_encode_cp c, utf8_encode rest with
      | Some bs, Some bs' => Some (bs ++ bs')
      | _, _ => None
      end
  end.

(** A text is encodable when it holds no surrogate (and nothing above
    U+10FFFF, which no [str] holds). *)
Definition encodable_cp (c : codepoint) : bool :=
  (c <? 0xD800) || ((0xDFFF <? c) && (c <? 0x110000)).

Definition encodable (s : pystr) : bool := forallb encodable_cp s.

(** [_ALWAYS_SAFE]: the unreserved characters of RFC 3986. *)
Definition always_safe : pystr :=
  lit "ABCDEFGHIJKLMNOPQRSTUVWXYZabcdefghijklmnopqrstuvwxyz0123456789_.-~".

Definition mem (c : N) (s : pystr) : bool := existsb (N.eqb c) s.

(** One digit of ['%%{:02X}'.format(b)]. *)
Definition hex_digit (d : N) : codepoint :=
  if d <? 10 then 48 + d else 55 + d.

(** The quoter of [quote_from_bytes]: a safe byte stands for itself, any
    other byte [b] becomes [%XX]. *)
Definition quoter (safe : pystr) (b : N) : pystr :=
  if mem b (always_safe ++ safe) then [b]
  else [37; hex_digit (b / 16); hex_digit (b mod 16)].

Definition quote_from_bytes (bs : list N) (safe : pystr) : pystr :=
  List.concat (map (quoter safe) bs).

(** [urllib.parse.quote(string, safe)] on a [str]. *)
Definition quote (s : pystr) (safe : pystr) : result pystr :=
  match utf8_encode s with
  | Some bs => Return (quote_from_bytes bs safe)
  | None => Raise UnicodeEncodeError
  end.

(** The default of the [safe] argument. *)
Definition safe_default : pystr := lit "/".

(** ** State and exceptions together

    A method that updates [self] and may raise: the state it leaves behind
    is returned in both cases, as an assignment made before a [raise]
    stays made. *)

Definition St (S A : Type) : Type := S -> S * result A.

Definition st_bind {S A B : Type} (c : St S A) (k : A -> St S B) : St S B :=
  fun s =>
    match c s with
    | (s', Return a) => k a s'
    | (s', Raise e) => (s', Raise e)
    end.

Definition st_lift {S A : Type} (c : result A) : St S A := fun s => (s, c).

Definition st_read {S : Type} : St S S := fun s => (s, Return s).

Definition st_write {S : Type} (s : S) : St S unit := fun _ => (s, Return tt).

Notation "x <~ c ;; k" := (st_bind c (fun x => k))
  (at level 61, c at next level, right associativity).

(** [try: c  except classes: pass]: an exception of one of the classes is
    dropped, the state reached at the [raise] is kept. *)
Definition try_except_pass {S : Type} (c : St S unit) (caught : exn -> bool) : St S unit :=
  fun s =>
    match c s with
    | (s', Return tt) => (s', Return tt)
    | (s', Raise e) => if caught e then (s', Return tt) else (s', Raise e)
    end.

(** ** The response types of [_types.py] *)

Module ApiResponseMeta.
Record t : Type := Make {
  request_id : json;
  timestamp : json;
  page : json;
  total_pages : json;
  total_results : json
}.
End ApiResponseMeta.

Module ApiResponseUsage.
Record t : Type := Make {
  requests_today : json;
  limit : json
}.
End ApiResponseUsage.

Module ApiResponse.
Record t : Type := Make {
  data : json;
  meta : ApiResponseMeta.t;
  usage : ApiResponseUsage.t
}.
End ApiResponse.

Module RateLimitInfo.
Record t : Type := Make {
  remaining : Z;
  limit : Z
}.
End RateLimitInfo.

(** ** The network *)

(** What [get] hands to [urllib.request.Request]. *)
Record Request : Type := {
  full_url : pystr;
  method : pystr;
  req_headers : list (pystr * pystr)
}.

(** What [json.loads(resp.read().decode("utf-8"))] evaluates to: the parsed
    value; or the exception of [json.loads], which is [JSONDecodeError] for
    a text that is not JSON, [RecursionError] for one nested deeper than
    the interpreter follows, and a plain [ValueError] for one that holds an
    integer of more digits than the interpreter converts; or the exception
    of [decode] when the bytes are not UTF-8; or that of [read] when the
    body does not arrive. *)
Inductive body_outcome : Type :=
| Parsed (j : json)
| NotJSON
| NotUTF8
| NestedTooDeep
| DigitsOverLimit
| Unread.

(** An HTTP response, and [urllib.error.HTTPError], which is one. *)
Record Response : Type := {
  resp_code : Z;                              (* exc.code *)
  resp_headers : pystr -> option pystr;       (* resp.headers.get *)
  resp_body : body_outcome
}.

(** What [Request(url, ...)] and [urlopen(req)] do with a request.
    [urlopen] returns a response, raises [HTTPError] for a status that is
    not a success, or something else is raised, on the way to the server or
    back. Before that, [Request] raises [ValueError] when it finds no
    scheme in the URL, as in [api.usecart.com/v1/account]; [urlopen] is
    then not called. *)
Inductive reply : Type :=
| Success (resp : Response)
| HTTPError (exc : Response)
| Failure
| Rejected.

(** A program that talks to the network. *)
Inductive io (A : Type) : Type :=
| Done (a : A)
| UrlOpen (req : Request) (k : reply -> io A).

Arguments Done {A} a.
Arguments UrlOpen {A} req k.

(** Running a program against a server: the requests handed to
    [urlopen], in order, and the outcome. *)
Fixpoint run {A : Type} (p : io A) (server : Request -> reply) : list Request * A :=
  match p with
  | Done a => ([], a)
  | UrlOpen req k =>
      let (sent, a) := run (k (server req)) server in
      (match server req with
       | Rejected => sent
       | _ => req :: sent
       end, a)
  end.

(** The built-in [int] applied to a [str]; [None] stands for its
    [ValueError]. Which texts it accepts is the interpreter's business
    (blanks, signs, underscores, digits of other scripts, a length limit),
    so everything below takes it as given. *)
Class Builtins : Type := { int : pystr -> option Z }.

(** [x.get(key, default)] on a JSON value: only a dict has [get]. *)
Definition py_get (x : json) (key : pystr) (default : json) : result json :=
  match x with
  | JObject d => Return (dict_get d key default)
  | _ => Raise AttributeError
  end.

(** ** Query parameters *)

(** The values the resource methods put in a [params] dict: [None], a
    [bool], an [int], a [float], a [str], or a list of those. *)
Inductive atom : Type :=
| ANone
| ABool (b : bool)
| AInt (n : Z)
| AFloat (repr : pystr)     (* a float, by the text repr() prints *)
| AStr (s : pystr).

Inductive value : Type :=
| Atom (a : atom)
| VList (items : list atom).

(** [str(v)] *)
Definition str (a : atom) : pystr :=
  match a with
  | ANone => lit "None"
  | ABool true => lit "True"
  | ABool false => lit "False"
  | AInt n => str_int n
  | AFloat r => r
  | AStr s => s
  end.

(** A [dict] in insertion order. *)
Definition params_t := list (pystr * value).

(** ** [_http.py]: the transport *)

Definition _VERSION : pystr := lit "0.1.0".

Module HttpClient.

Record t : Type := Make {
  _api_key : pystr;
  _base_url : pystr;
  rate_limit : option RateLimitInfo.t
}.

Definition __init__ (api_key base_url : pystr) : t :=
  {| _api_key := api_key;
     _base_url := rstrip_slash base_url;
     rate_limit := None |}.

(** The [for key, value in params.items()] loop; [parts] is the list built
    so far. *)
Fixpoint _build_url_loop (items : params_t) (parts : list pystr) : result (list pystr) :=
  match items with
  | [] => Return parts
  | (key, value) :: rest =>
      match value with
      | Atom ANone => _build_url_loop rest parts
      | Atom (ABool b) =>
          k <- quote key safe_default ;;
          _build_url_loop rest (parts ++ [k ++ lit "=" ++ lower (str (ABool b))])
      | VList vs =>
          elems <- traverse (fun v => quote (str v) []) vs ;;
          let joined := join (lit ",") elems in
          k <- quote key safe_default ;;
          _build_url_loop rest (parts ++ [k ++ lit "=" ++ joined])
      | Atom a =>
          k <- quote key safe_default ;;
          v <- quote (str a) [] ;;
          _build_url_loop rest (parts ++ [k ++ lit "=" ++ v])
      end
  end.

Definition _build_url (self : t) (path : pystr) (params : option params_t) : result pystr :=
  let url := _base_url self ++ path in
  match params with
  | None | Some [] => Return url
  | Some items =>
      parts <- _build_url_loop items [] ;;
      match parts with
      | [] => Return url
      | _ => Return (url ++ lit "?" ++ join (lit "&") parts)
      end
  end.

Definition set_rate_limit (r : RateLimitInfo.t) : St t unit :=
  fun self => ({| _api_key := _api_key self;
                  _base_url := _base_url self;
                  rate_limit := Some r |}, Return tt).

(** [int(text)] *)
Definition to_int `{Builtins} (text : pystr) : result Z :=
  match int text with
  | Some n => Return n
  | None => Raise (IntValueError text)
  end.

Definition _parse_rate_limit_headers `{Builtins} (resp : Response) : St t unit :=
  let remaining := resp_headers resp (lit "X-RateLimit-Remaining") in
  let limit := resp_headers resp (lit "X-RateLimit-Limit") in
  match remaining, limit with
  | Some remaining, Some limit =>
      r <~ st_lift (to_int remaining) ;;
      l <~ st_lift (to_int limit) ;;
      set_rate_limit (RateLimitInfo.Make r l)
  | _, _ => st_lift (Return tt)
  end.

Definition read_json (resp : Response) : result json :=
  match resp_body resp with
  | Parsed j => Return j
  | NotJSON => Raise JSONDecodeError
  | NotUTF8 => Raise UnicodeDecodeError
  | NestedTooDeep => Raise RecursionError
  | DigitsOverLimit => Raise (ValueError IntegerTooLong)
  | Unread => Raise ReadError
  end.

(** The local variables [code], [message] and [request_id] of
    [_handle_error_response]. *)
Record locals : Type := Locals {
  code : json;
  message : json;
  request_id : json
}.

(** The body of its [try]. *)
Definition _handle_error_response_try (exc : Response) : St locals unit :=
  body <~ st_lift (read_json exc) ;;
  error <~ st_lift (py_get body (lit "error") (JObject [])) ;;
  if truthy error then
    vars <~ st_read ;;
    c <~ st_lift (py_get error (lit "code") (code vars)) ;;
    _ <~ st_write (Locals c (message vars) (request_id vars)) ;;
    vars <~ st_read ;;
    m <~ st_lift (py_get error (lit "message") (message vars)) ;;
    _ <~ st_write (Locals (code vars) m (request_id vars)) ;;
    vars <~ st_read ;;
    r <~ st_lift (py_get error (lit "request_id") JNull) ;;
    st_write (Locals (code vars) (message vars) r)
  else st_lift (Return tt).

(** [except (json.JSONDecodeError, AttributeError)] *)
Definition caught (e : exn) : bool :=
  match e with
  | JSONDecodeError | AttributeError => true
  | _ => false
  end.

(** The method never returns: its value is the exception it raises. *)
Definition _handle_error_response `{Builtins} (self : t) (exc : Response) : exn :=
  let status := resp_code exc in
  let vars := Locals (JStr (lit "unknown_error"))
                     (JStr (lit "Cart API error: " ++ str_int status))
                     JNull in
  match try_except_pass (_handle_error_response_try exc) caught vars with
  | (_, Raise e) => e
  | (vars, Return _) =>
      if (status =? 401)%Z then
        CartError (Errors.CartAuthError (message vars) (request_id vars))
      else if (status =? 429)%Z then
        let retry_after_header := resp_headers exc (lit "Retry-After") in
        match
          match retry_after_header with
          | Some (c :: h) => n <- to_int (c :: h) ;; Return (Some n)
          | Some [] | None => Return None
          end
        with
        | Raise e => e
        | Return retry_after =>
            CartError (Errors.CartRateLimitError
              (message vars) (request_id vars) retry_after
              (option_map RateLimitInfo.limit (rate_limit self))
              (option_map RateLimitInfo.remaining (rate_limit self)))
        end
      else
        CartError (Errors.CartApiError (message vars) status (code vars) (request_id vars))
  end.

Definition _parse_response (body : json) : result ApiResponse.t :=
  raw_meta <- py_get body (lit "meta") (JObject []) ;;
  request_id <- py_get raw_meta (lit "request_id") (JStr []) ;;
  timestamp <- py_get raw_meta (lit "timestamp") (JStr []) ;;
  page <- py_get raw_meta (lit "page") (JInt 0) ;;
  total_pages <- py_get raw_meta (lit "total_pages") (JInt 0) ;;
  total_results <- py_get raw_meta (lit "total_results") (JInt 0) ;;
  let meta := ApiResponseMeta.Make request_id timestamp page total_pages total_results in
  raw_usage <- py_get body (lit "usage") (JObject []) ;;
  requests_today <- py_get raw_usage (lit "requests_today") (JInt 0) ;;
  limit <- py_get raw_usage (lit "limit") (JInt 0) ;;
  let usage := ApiResponseUsage.Make requests_today limit in
  data <- py_get body (lit "data") JNull ;;
  Return (ApiResponse.Make data meta usage).

(** The request [get] asks [Request] for. *)
Definition request (self : t) (url : pystr) : Request :=
  {| full_url := url;
     method := lit "GET";
     req_headers :=
       [ (lit "Authorization", lit "Bearer " ++ _api_key self);
         (lit "Accept", lit "application/json");
         (lit "User-Agent", lit "usecart-python/" ++ _VERSION) ] |}.

(** [get]: the client after the call, with what the call returned or
    raised. [Request(url, ...)] stands before the [try], so what it raises
    leaves [get] as it is. *)
Definition get `{Builtins} (self : t) (path : pystr) (params : option params_t)
  : io (t * result ApiResponse.t) :=
  match _build_url self path params with
  | Raise e => Done (self, Raise e)
  | Return url =>
      UrlOpen (request self url) (fun answer =>
        match answer with
        | Success resp =>
            Done ((_ <~ _parse_rate_limit_headers resp ;;
                   body <~ st_lift (read_json resp) ;;
                   st_lift (_parse_response body)) self)
        | HTTPError exc =>
            Done ((_ <~ _parse_rate_limit_headers exc ;;
                   self' <~ st_read ;;
                   st_lift (Raise (_handle_error_response self' exc))) self)
        | Failure => Done (self, Raise TransportError)
        | Rejected => Done (self, Raise (ValueError (UnknownUrlType url)))
        end)
  end.

End HttpClient.

(** ** [_resources.py]: the resource methods

    A resource object holds nothing but a reference to the transport of the
    client, so a method takes the transport [http] in the place of
    [self._http]. An optional argument left out is [None]. *)

(** A [float] argument, by the text repr() prints. *)
Definition pyfloat := pystr.

Definition of_str (x : option pystr) : value :=
  match x with Some s => Atom (AStr s) | None => Atom ANone end.

Definition of_int (x : option Z) : value :=
  match x with Some n => Atom (AInt n) | None => Atom ANone end.

Definition of_bool (x : option bool) : value :=
  match x with Some b => Atom (ABool b) | None => Atom ANone end.

Definition of_float (x : option pyfloat) : value :=
  match x with Some r => Atom (AFloat r) | None => Atom ANone end.

(** [_encode(segment)] *)
Definition _encode (segment : pystr) : result pystr :=
  quote segment [].

(** [self._http.get(f"{before}{_encode(segment)}{after}", params)]: the
    path is built first, and what [_encode] raises leaves before the
    transport is reached. *)
Definition get_at `{Builtins} (http : HttpClient.t) (before segment after : pystr)
  (params : option params_t) : io (HttpClient.t * result ApiResponse.t) :=
  match _encode segment with
  | Return s => HttpClient.get http (before ++ s ++ after) params
  | Raise e => Done (http, Raise e)
  end.

Module StoresResource.

Definition search `{Builtins} (http : HttpClient.t)
  (keyword : option pystr) (page per_page : option Z)
  (sort platform language currency biz_model : option pystr)
  (has_ads : option bool) (status : option pystr) (min_traffic : option Z) :=
  let params : params_t :=
    [ (lit "keyword", of_str keyword);
      (lit "page", of_int page);
      (lit "per_page", of_int per_page);
      (lit "sort", of_str sort);
      (lit "platform", of_str platform);
      (lit "language", of_str language);
      (lit "currency", of_str currency);
      (lit "biz_model", of_str biz_model);
      (lit "has_ads", of_bool has_ads);
      (lit "status", of_str status);
      (lit "min_traffic", of_int min_traffic) ] in
  HttpClient.get http (lit "/stores") (Some params).

Definition get `{Builtins} (http : HttpClient.t) (domain : pystr) :=
  get_at http (lit "/stores/") domain [] None.

Definition get_products `{Builtins} (http : HttpClient.t) (domain : pystr)
  (page per_page : option Z) (sort : option pystr) :=
  let params : params_t :=
    [ (lit "page", of_int page);
      (lit "per_page", of_int per_page);
      (lit "sort", of_str sort) ] in
  get_at http (lit "/stores/") domain (lit "/products") (Some params).

Definition get_ads `{Builtins} (http : HttpClient.t) (domain : pystr) :=
  get_at http (lit "/stores/") domain (lit "/ads") None.

Definition get_traffic `{Builtins} (http : HttpClient.t) (domain : pystr) :=
  get_at http (lit "/stores/") domain (lit "/traffic") None.

Definition get_tech `{Builtins} (http : HttpClient.t) (domain : pystr) :=
  get_at http (lit "/stores/") domain (lit "/tech") None.

Definition compare `{Builtins} (http : HttpClient.t) (domains : list pystr) :=
  HttpClient.get http (lit "/stores/compare")
    (Some [ (lit "domains", VList (map AStr domains)) ]).

End StoresResource.

Module ProductsResource.

Definition search `{Builtins} (http : HttpClient.t)
  (keyword : option pystr) (page per_page : option Z) (sort : option pystr)
  (min_price max_price : option pyfloat) (currency : option pystr) :=
  let params : params_t :=
    [ (lit "keyword", of_str keyword);
      (lit "page", of_int page);
      (lit "per_page", of_int per_page);
      (lit "sort", of_str sort);
      (lit "min_price", of_float min_price);
      (lit "max_price", of_float max_price);
      (lit "currency", of_str currency) ] in
  HttpClient.get http (lit "/products") (Some params).

Definition get `{Builtins} (http : HttpClient.t) (id : pystr) :=
  get_at http (lit "/products/") id [] None.

Definition trending `{Builtins} (http : HttpClient.t)
  (page per_page : option Z) (category : option pystr) :=
  let params : params_t :=
    [ (lit "page", of_int page);
      (lit "per_page", of_int per_page);
      (lit "category", of_str category) ] in
  HttpClient.get http (lit "/products/trending") (Some params).

End ProductsResource.

Module AdsResource.

Definition search `{Builtins} (http : HttpClient.t)
  (keyword : option pystr) (page per_page : option Z)
  (sort platform store_domain : option pystr) :=
  let params : params_t :=
    [ (lit "keyword", of_str keyword);
      (lit "page", of_int page);
      (lit "per_page", of_int per_page);
      (lit "sort", of_str sort);
      (lit "platform", of_str platform);
      (lit "store_domain", of_str store_domain) ] in
  HttpClient.get http (lit "/ads") (Some params).

Definition get `{Builtins} (http : HttpClient.t) (id : pystr) :=
  get_at http (lit "/ads/") id [] None.

End AdsResource.

Module SuppliersResource.

Definition search `{Builtins} (http : HttpClient.t)
  (keyword : option pystr) (page per_page : option Z)
  (sort location type : option pystr) :=
  let params : params_t :=
    [ (lit "keyword", of_str keyword);
      (lit "page", of_int page);
      (lit "per_page", of_int per_page);
      (lit "sort", of_str sort);
      (lit "location", of_str location);
      (lit "type", of_str type) ] in
  HttpClient.get http (lit "/suppliers") (Some params).

End SuppliersResource.

Module NichesResource.

Definition get `{Builtins} (http : HttpClient.t) (keyword : pystr) :=
  get_at http (lit "/niches/") keyword [] None.

End NichesResource.

(** ** [_client.py]: the facade *)

Definition _DEFAULT_BASE_URL : pystr := lit "https://api.usecart.com/v1".

Module Cart.

Record t : Type := Make { _http : HttpClient.t }.

Definition api_key_required : pystr :=
  lit "An API key is required. Pass it as the first argument: Cart('cart_sk_...')".

(** [Cart(api_key, base_url=...)]; [api_key] may be [None], and
    [base_url = None] is the keyword left out. *)
Definition __init__ (api_key : option pystr) (base_url : option pystr) : io (result t) :=
  match api_key with
  | None | Some [] => Done (Raise (ValueError (Message api_key_required)))
  | Some key =>
      let base_url := match base_url with Some u => u | None => _DEFAULT_BASE_URL end in
      Done (Return {| _http := HttpClient.__init__ key base_url |})
  end.

Definition rate_limit (self : t) : option RateLimitInfo.t :=
  HttpClient.rate_limit (_http self).

Definition trending `{Builtins} (self : t)
  (page per_page : option Z) (category : option pystr) :=
  let params : params_t :=
    [ (lit "page", of_int page);
      (lit "per_page", of_int per_page);
      (lit "category", of_str category) ] in
  HttpClient.get (_http self) (lit "/trending") (Some params).

Definition account `{Builtins} (self : t) :=
  HttpClient.get (_http self) (lit "/account") None.

End Cart.

(** ** Every call of the public surface *)

Inductive api_call : Type :=
| stores_search (keyword : option pystr) (page per_page : option Z)
    (sort platform language currency biz_model : option pystr)
    (has_ads : option bool) (status : option pystr) (min_traffic : option Z)
| stores_get (domain : pystr)
| stores_get_products (domain : pystr) (page per_page : option Z) (sort : option pystr)
| stores_get_ads (domain : pystr)
| stores_get_traffic (domain : pystr)
| stores_get_tech (domain : pystr)
| stores_compare (domains : list pystr)
| products_search (keyword : option pystr) (page per_page : option Z)
    (sort : option pystr) (min_price max_price : option pyfloat)
    (currency : option pystr)
| products_get (id : pystr)
| products_trending (page per_page : option Z) (category : option pystr)
| ads_search (keyword : option pystr) (page per_page : option Z)
    (sort platform store_domain : option pystr)
| ads_get (id : pystr)
| suppliers_search (keyword : option pystr) (page per_page : option Z)
    (sort location type : option pystr)
| niches_get (keyword : pystr)
| client_trending (page per_page : option Z) (category : option pystr)
| client_account.

(** The call [c] made on a client whose transport is [http]. *)
Definition invoke `{Builtins} (http : HttpClient.t) (c : api_call)
  : io (HttpClient.t * result ApiResponse.t) :=
  match c with
  | stores_search keyword page per_page sort platform language currency
      biz_model has_ads status min_traffic =>
      StoresResource.search http keyword page per_page sort platform language
        currency biz_model has_ads status min_traffic
  | stores_get domain => StoresResource.get http domain
  | stores_get_products domain page per_page sort =>
      StoresResource.get_products http domain page per_page sort
  | stores_get_ads domain => StoresResource.get_ads http domain
  | stores_get_traffic domain => StoresResource.get_traffic http domain
  | stores_get_tech domain => StoresResource.get_tech http domain
  | stores_compare domains => StoresResource.compare http domains
  | products_search keyword page per_page sort min_price max_price currency =>
      ProductsResource.search http keyword page per_page sort min_price
        max_price currency
  | products_get id => ProductsResource.get http id
  | products_trending page per_page category =>
      ProductsResource.trending http page per_page category
  | ads_search keyword page per_page sort platform store_domain =>
      AdsResource.search http keyword page per_page sort platform store_domain
  | ads_get id => AdsResource.get http id
  | suppliers_search keyword page per_page sort location type =>
      SuppliersResource.search http keyword page per_page sort location type
  | niches_get keyword => NichesResource.get http keyword
  | client_trending page per_page category =>
      Cart.trending (Cart.Make http) page per_page category
  | client_account => Cart.account (Cart.Make http)
  end.

(** The request a program first asks urllib for, if it gets that far. *)
Definition first_request {A : Type} (p : io A) : option Request :=
  match p with
  | UrlOpen req _ => Some req
  | Done _ => None
  end.

(** ** [int] on plain ASCII texts

    Blanks around (the space and U+0009 to U+000D), one sign, decimal
    digits with single underscores between them, and no more than 4300
    digits: what [int] accepts among the texts of ASCII characters, under
    the digit limit an interpreter starts with. It serves to run the
    scenarios. *)

Definition is_blank (c : codepoint) : bool :=
  (c =? 32) || ((9 <=? c) && (c <=? 13)).

Definition is_digit (c : codepoint) : bool := (48 <=? c) && (c <=? 57).

Fixpoint lstrip (s : pystr) : pystr :=
  match s with
  | [] => []
  | c :: rest => if is_blank c then lstrip rest else s
  end.

Definition strip (s : pystr) : pystr := rev (lstrip (rev (lstrip s))).

Fixpoint ascii_digits (s : pystr) (acc : Z) (after_digit : bool) : option Z :=
  match s with
  | [] => if after_digit then Some acc else None
  | c :: rest =>
      if is_digit c then
        ascii_digits rest (10 * acc + Z.of_N (c - 48)) true
      else if (c =? 95) && after_digit then ascii_digits rest acc false
      else None
  end.

Definition ascii_int (s : pystr) : option Z :=
  if 4300 <? N.of_nat (List.length (filter is_digit s)) then None
  else
    match strip s with
    | 45 :: digits => option_map Z.opp (ascii_digits digits 0 false)
    | 43 :: digits => ascii_digits digits 0 false
    | digits => ascii_digits digits 0 false
    end.

Definition ascii_builtins : Builtins := {| int := ascii_int |}.

(** Headers given as a list of pairs, for the scenarios. *)
Fixpoint headers_of (l : list (pystr * pystr)) (name : pystr) : option pystr :=
  match l with
  | [] => None
  | (k, v) :: rest => if pystr_eqb k name then Some v else headers_of rest name
  end.

(** ** The query string, in the words of the specification

    Entries whose value is null are left out; a boolean is [true] or
    [false]; a list is its elements, each percent-encoded, joined by commas;
    anything else is its string form, percent-encoded; the entries keep the
    order of the mapping. *)

Definition is_present (kv : pystr * value) : bool :=
  match snd kv with
  | Atom ANone => false
  | _ => true
  end.

Definition described_value (v : value) : result pystr :=
  match v with
  | Atom (ABool true) => Return (lit "true")
  | Atom (ABool false) => Return (lit "false")
  | VList vs =>
      elems <- traverse (fun a => quote (str a) []) vs ;;
      Return (join (lit ",") elems)
  | Atom a => quote (str a) []
  end.

Definition described_entry (kv : pystr * value) : result pystr :=
  k <- quote (fst kv) safe_default ;;
  v <- described_value (snd kv) ;;
  Return (k ++ lit "=" ++ v).

Definition described_url (url : pystr) (params : params_t) : result pystr :=
  parts <- traverse described_entry (filter is_present params) ;;
  match parts with
  | [] => Return url
  | _ => Return (url ++ lit "?" ++ join (lit "&") parts)
  end.

(** ** Characters of a URL *)

(** The reserved characters of RFC 3986: gen-delims and sub-delims. *)
Definition reserved : pystr := lit ":/?#[]@!$&'()*+,;=".

(** An unreserved character, or the percent sign of an escape. *)
Definition plain (c : codepoint) : bool := mem c always_safe || (c =? 37).

(** Number of commas in a text. *)
Definition commas (s : pystr) : nat := List.length (filter (N.eqb 44) s).

(** Number of separators the list values of a mapping need. *)
Fixpoint list_separators (params : params_t) : nat :=
  match params with
  | [] => 0
  | (_, VList vs) :: rest => (pred (List.length vs) + list_separators rest)%nat
  | _ :: rest => list_separators rest
  end.

(** Undoing [quote_from_bytes]: an escape [%XX] gives back its byte. *)
Definition hex_value (c : codepoint) : N :=
  if c <? 58 then c - 48 else c - 55.

Fixpoint unquote_to_bytes (s : pystr) : list N :=
  match s with
  | [] => []
  | c :: rest =>
      if c =? 37 then
        match rest with
        | h :: l :: rest' => (16 * hex_value h + hex_value l) :: unquote_to_bytes rest'
        | _ => c :: unquote_to_bytes rest
        end
      else c :: unquote_to_bytes rest
  end.

(** One entry of a query string, as the transport writes it: the key with
    everything but unreserved characters and the slash escaped, and the
    value with everything but unreserved characters escaped, a list value
    being its escaped elements with commas between. *)
Definition encoded_value (v : value) (t : pystr) : Prop :=
  match v with
  | VList vs =>
      exists elems,
        t = join (lit ",") elems /\
        Forall2 (fun a e => quote (str a) [] = Return e /\ forallb plain e = true)
                vs elems
  | Atom (ABool b) => t = if b then lit "true" else lit "false"
  | Atom a => quote (str a) [] = Return t /\ forallb plain t = true
  end.

Definition encoded_entry (kv : pystr * value) (part : pystr) : Prop :=
  exists k t,
    part = k ++ lit "=" ++ t /\
    quote (fst kv) safe_default = Return k /\
    forallb (fun c => plain c || (c =? 47)) k = true /\
    encoded_value (snd kv) t.

(** ** Observing a call *)

(** The URL of the request a program first asks urllib for. *)
Definition sent_url {A : Type} (p : io A) : option pystr :=
  option_map full_url (first_request p).


(** A client for the scenarios. *)
Definition scenario_http : HttpClient.t :=
  HttpClient.__init__ (lit "cart_sk_test") _DEFAULT_BASE_URL.

(** ** The cache and the error body, in the words of the specification *)

(** The cached rate limit after a response: overwritten when both headers
    are there and both parse as integers, left as it was otherwise. *)
Definition cache_after `{Builtins} (cached : option RateLimitInfo.t) (resp : Response)
  : option RateLimitInfo.t :=
  match resp_headers resp (lit "X-RateLimit-Remaining"),
        resp_headers resp (lit "X-RateLimit-Limit") with
  | Some remaining, Some limit =>
      match int remaining, int limit with
      | Some r, Some l => Some (RateLimitInfo.Make r l)
      | _, _ => cached
      end
  | _, _ => cached
  end.

(** The member [key] of a JSON object, if it has one. *)
Fixpoint member (fields : list (pystr * json)) (key : pystr) : option json :=
  match fields with
  | [] => None
  | (k, v) :: rest => if pystr_eqb k key then Some v else member rest key
  end.

(** The error object of an error body: the member [error] of a body that
    is a JSON object, when it is an object with something in it. *)
Definition error_object (body : body_outcome) : option (list (pystr * json)) :=
  match body with
  | Parsed (JObject d) =>
      match member d (lit "error") with
      | Some (JObject (kv :: e)) => Some (kv :: e)
      | _ => None
      end
  | _ => None
  end.

(** Code, message and request id as the error body gives them, each with
    its fallback. *)
Definition resolved (status : Z) (body : body_outcome) : HttpClient.locals :=
  let code := JStr (lit "unknown_error") in
  let message := JStr (lit "Cart API error: " ++ str_int status) in
  match error_object body with
  | Some e =>
      HttpClient.Locals
        (match member e (lit "code") with Some v => v | None => code end)
        (match member e (lit "message") with Some v => v | None => message end)
        (match member e (lit "request_id") with Some v => v | None => JNull end)
  | None => HttpClient.Locals code message JNull
  end.

(** ** The envelope, in the words of the specification *)

Definition object_if_present (o : option json) : bool :=
  match o with
  | None | Some (JObject _) => true
  | Some _ => false
  end.

(** The field [name] of the object [o]: its value when the object is there
    and has the field, the default otherwise. *)
Definition field_of (o : option json) (name : pystr) (default : json) : json :=
  match o with
  | Some (JObject m) =>
      match member m name with
      | Some v => v
      | None => default
      end
  | _ => default
  end.

(** The body [{data, meta: {...}, usage: {...}}] that holds a response. *)
Definition envelope (r : ApiResponse.t) : json :=
  let m := ApiResponse.meta r in
  let u := ApiResponse.usage r in
  JObject
    [ (lit "data", ApiResponse.data r);
      (lit "meta",
        JObject
          [ (lit "request_id", ApiResponseMeta.request_id m);
            (lit "timestamp", ApiResponseMeta.timestamp m);
            (lit "page", ApiResponseMeta.page m);
            (lit "total_pages", ApiResponseMeta.total_pages m);
            (lit "total_results", ApiResponseMeta.total_results m) ]);
      (lit "usage",
        JObject
          [ (lit "requests_today", ApiResponseUsage.requests_today u);
            (lit "limit", ApiResponseUsage.limit u) ]) ].

(** ** Responses of the scenarios *)

Definition error_body (code message request_id : string) : body_outcome :=
  Parsed (JObject
    [ (lit "error",
        JObject [ (lit "code", JStr (lit code));
                  (lit "message", JStr (lit message));
                  (lit "request_id", JStr (lit request_id)) ]) ]).

(** A 401 with the body
    [{"error":{"code":"invalid_key","message":"bad key","request_id":"req_1"}}]. *)
Definition unauthorized : Response :=
  {| resp_code := 401;
     resp_headers := headers_of [];
     resp_body := error_body "invalid_key" "bad key" "req_1" |}.

(** A 429 with [X-RateLimit-Limit: 100], [X-RateLimit-Remaining: 0] and
    [Retry-After: 30]. *)
Definition too_many_requests : Response :=
  {| resp_code := 429;
     resp_headers :=
       headers_of [ (lit "X-RateLimit-Limit", lit "100");
                    (lit "X-RateLimit-Remaining", lit "0");
                    (lit "Retry-After", lit "30") ];
     resp_body := error_body "rate_limit_exceeded" "slow down" "req_2" |}.

(** The same 429 with [Retry-After] given as a date, the other form
    HTTP allows for it. *)
Definition retry_after_date : pystr := lit "Wed, 21 Oct 2015 07:28:00 GMT".

Definition too_many_requests_until_date : Response :=
  {| resp_code := 429;
     resp_headers :=
       headers_of [ (lit "X-RateLimit-Limit", lit "100");
                    (lit "X-RateLimit-Remaining", lit "0");
                    (lit "Retry-After", retry_after_date) ];
     resp_body := error_body "rate_limit_exceeded" "slow down" "req_2" |}.

(** A 401 and a 500 whose bodies are bytes that are not UTF-8, as an HTML
    page in Latin-1 is. *)
Definition unauthorized_not_utf8 : Response :=
  {| resp_code := 401; resp_headers := headers_of []; resp_body := NotUTF8 |}.

Definition server_error_not_utf8 : Response :=
  {| resp_code := 500; resp_headers := headers_of []; resp_body := NotUTF8 |}.

(** ** Further observations *)

(** Number of times a character occurs in a text. *)
Definition occurrences (c : codepoint) (s : pystr) : nat :=
  List.length (filter (N.eqb c) s).

(** The rate-limit headers of a response can be read: they are not both
    there, or [int] accepts both. *)
Definition readable_rate_limit_headers `{Builtins} (resp : Response) : Prop :=
  match resp_headers resp (lit "X-RateLimit-Remaining"),
        resp_headers resp (lit "X-RateLimit-Limit") with
  | Some remaining, Some limit => int remaining <> None /\ int limit <> None
  | _, _ => True
  end.

(** The body of a response is read by [json.loads]: it returns a value, or
    raises the [JSONDecodeError] that [_handle_error_response] catches. *)
Definition json_read (body : body_outcome) : bool :=
  match body with
  | Parsed _ | NotJSON => true
  | _ => false
  end.

(** The client with another cache. *)
Definition with_rate_limit (self : HttpClient.t) (cache : option RateLimitInfo.t)
  : HttpClient.t :=
  HttpClient.Make (HttpClient._api_key self) (HttpClient._base_url self) cache.

(** A character that writes nothing but itself in a query string: an
    unreserved one, the percent sign, the slash or the comma. *)
Definition quiet_char (c : codepoint) : bool :=
  plain c || (c =? 47) || (c =? 44).

Definition quiet (s : pystr) : bool := forallb quiet_char s.

(** ** Reading a query string back

    What a server does with a query string: it cuts it at the ampersands,
    each part at its first equals sign, a value at its commas, and undoes
    the percent escapes. *)

(** [s.split(sep)], for a separator of one character. *)
Fixpoint split (sep : codepoint) (s : pystr) : list pystr :=
  match s with
  | [] => [[]]
  | x :: rest =>
      if x =? sep then [] :: split sep rest
      else
        match split sep rest with
        | p :: ps => (x :: p) :: ps
        | [] => [[x]]
        end
  end.

(** [s.partition(sep)]: what is before the first [sep], and what is after. *)
Fixpoint partition (sep : codepoint) (s : pystr) : pystr * pystr :=
  match s with
  | [] => ([], [])
  | x :: rest =>
      if x =? sep then ([], rest)
      else let (before, after) := partition sep rest in (x :: before, after)
  end.

Definition parse_query (q : pystr) : list (list N * list (list N)) :=
  map (fun part =>
         let (k, v) := partition 61 part in
         (unquote_to_bytes k, map unquote_to_bytes (split 44 v)))
      (split 38 q).

(** The UTF-8 bytes of a text that has some. *)
Definition bytes_of (s : pystr) : list N :=
  match utf8_encode s with
  | Some bs => bs
  | None => []
  end.

(** What an entry stands for on the wire: the bytes of its key, and the
    bytes of its value or of each element of its list; an empty list reads
    as one empty value. *)
Definition wire_values (v : value) : list (list N) :=
  match v with
  | Atom (ABool b) => [if b then lit "true" else lit "false"]
  | Atom a => [bytes_of (str a)]
  | VList [] => [[]]
  | VList vs => map (fun a => bytes_of (str a)) vs
  end.

Definition wire_entry (kv : pystr * value) : list N * list (list N) :=
  (bytes_of (fst kv), wire_values (snd kv)).

(** The path of the calls that take no segment, as their docstrings give
    it after [/v1]. *)
Definition fixed_path (c : api_call) : option pystr :=
  match c with
  | stores_search _ _ _ _ _ _ _ _ _ _ _ => Some (lit "/stores")
  | stores_compare _ => Some (lit "/stores/compare")
  | products_search _ _ _ _ _ _ _ => Some (lit "/products")
  | products_trending _ _ _ => Some (lit "/products/trending")
  | ads_search _ _ _ _ _ _ => Some (lit "/ads")
  | suppliers_search _ _ _ _ _ _ => Some (lit "/suppliers")
  | client_trending _ _ _ => Some (lit "/trending")
  | client_account => Some (lit "/account")
  | _ => None
  end.

(** * Properties *)

(** ** The helpers at work *)

Example str_int_429 : str_int 429 = lit "429".
Proof. reflexivity. Qed.

Example str_int_negative : str_int (-12) = lit "-12".
Proof. reflexivity. Qed.

Example rstrip_slash_all : rstrip_slash (lit "https://a/b//") = lit "https://a/b".
Proof. reflexivity. Qed.

Example quote_every_reserved :
  quote (lit "a b/c,d") [] = Return (lit "a%20b%2Fc%2Cd").
Proof. reflexivity. Qed.

Example quote_keeps_slash :
  quote (lit "a b/c,d") safe_default = Return (lit "a%20b/c%2Cd").
Proof. reflexivity. Qed.

Example quote_beyond_ascii :
  quote [0xE9; 0x20AC; 0x1F600] [] = Return (lit "%C3%A9%E2%82%AC%F0%9F%98%80").
Proof. reflexivity. Qed.

Example quote_surrogate : quote [0xD800] [] = Raise UnicodeEncodeError.
Proof. reflexivity. Qed.

Example ascii_int_plain : ascii_int (lit "30") = Some 30%Z.
Proof. reflexivity. Qed.

Example ascii_int_blanks_sign_underscore : ascii_int (lit " -1_000 ") = Some (-1000)%Z.
Proof. reflexivity. Qed.

Example ascii_int_date : ascii_int retry_after_date = None.
Proof. reflexivity. Qed.

(** ** Results *)

Lemma bind_Return_inv (A B : Type) (c : result A) (k : A -> result B) (b : B) :
  bind c k = Return b -> exists a, c = Return a /\ k a = Return b.
Proof.
  destruct c as [a|e]; simpl; intros E; [eauto | discriminate].
Qed.

(** ** Percent-encoding *)

Lemma below_256 (P : N -> bool) :
  forallb P (map N.of_nat (seq 0 256)) = true ->
  forall b, b < 256 -> P b = true.
Proof.
  intros H b Hb.
  rewrite forallb_forall in H. apply H.
  apply in_map_iff. exists (N.to_nat b). split.
  - apply N2Nat.id.
  - apply in_seq. lia.
Qed.

Lemma mem_app (c : N) (s t : pystr) : mem c (s ++ t) = mem c s || mem c t.
Proof. apply existsb_app. Qed.

Lemma mem_In (c : N) (s : pystr) : mem c s = true <-> In c s.
Proof.
  unfold mem. rewrite existsb_exists. split.
  - intros (x & Hx & E). apply N.eqb_eq in E. now subst.
  - intros H. exists c. split; [assumption | apply N.eqb_refl].
Qed.

Lemma utf8_encode_cp_bytes (c : codepoint) (bs : list N) :
  utf8_encode_cp c = Some bs -> Forall (fun b => b < 256) bs.
Proof.
  unfold utf8_encode_cp.
  assert (M0 : c mod 64 < 64) by (apply N.mod_lt; lia).
  assert (M1 : (c / 64) mod 64 < 64) by (apply N.mod_lt; lia).
  assert (M2 : (c / 4096) mod 64 < 64) by (apply N.mod_lt; lia).
  destruct (N.ltb_spec c 0x80) as [H1|H1];
    [|destruct (N.ltb_spec c 0x800) as [H2|H2];
      [assert (D1 : c / 64 < 32) by (apply N.Div0.div_lt_upper_bound; lia)
      |destruct (N.ltb_spec c 0x10000) as [H3|H3];
        [assert (D2 : c / 4096 < 16) by (apply N.Div0.div_lt_upper_bound; lia);
         destruct ((0xD800 <=? c) && (c <=? 0xDFFF)); [discriminate|]
        |destruct (N.ltb_spec c 0x110000) as [H4|H4]; [|discriminate];
         assert (D3 : c / 262144 < 8) by (apply N.Div0.div_lt_upper_bound; lia)]]];
    intros E; apply (f_equal (fun o => match o with Some l => l | None => [] end)) in E;
    rewrite <- E; repeat (apply Forall_cons; [lia|]); apply Forall_nil.
Qed.

Lemma utf8_encode_bytes (s : pystr) :
  forall bs, utf8_encode s = Some bs -> Forall (fun b => b < 256) bs.
Proof.
  induction s as [|c s IH]; simpl; intros bs E.
  - injection E as <-. constructor.
  - destruct (utf8_encode_cp c) as [b1|] eqn:E1; [|discriminate].
    destruct (utf8_encode s) as [b2|]; [|discriminate].
    injection E as <-. apply Forall_app. split.
    + eapply utf8_encode_cp_bytes; eassumption.
    + now apply IH.
Qed.

Lemma utf8_encode_cp_None (c : codepoint) :
  utf8_encode_cp c = None <-> encodable_cp c = false.
Proof.
  unfold utf8_encode_cp, encodable_cp.
  destruct (N.ltb_spec c 0x80), (N.ltb_spec c 0x800), (N.ltb_spec c 0x10000),
    (N.ltb_spec c 0x110000), (N.leb_spec 0xD800 c), (N.leb_spec c 0xDFFF),
    (N.ltb_spec c 0xD800), (N.ltb_spec 0xDFFF c);
    simpl; split; intros E; try discriminate; try reflexivity; lia.
Qed.

Lemma utf8_encode_None (s : pystr) :
  utf8_encode s = None <-> encodable s = false.
Proof.
  induction s as [|c s IH]; simpl.
  - split; discriminate.
  - destruct (utf8_encode_cp c) as [b1|] eqn:E1.
    + assert (encodable_cp c = true) as ->.
      { destruct (encodable_cp c) eqn:E2; [reflexivity|].
        apply utf8_encode_cp_None in E2. congruence. }
      simpl. rewrite <- IH. destruct (utf8_encode s); split; congruence.
    + apply utf8_encode_cp_None in E1. rewrite E1. simpl. tauto.
Qed.

(** [quote] raises nothing but [UnicodeEncodeError], and raises it exactly
    on the texts that hold a surrogate. *)
Lemma quote_Raise (s safe : pystr) (e : exn) :
  quote s safe = Raise e <-> e = UnicodeEncodeError /\ encodable s = false.
Proof.
  unfold quote. rewrite <- utf8_encode_None.
  destruct (utf8_encode s); split.
  - discriminate.
  - intros [_ ?]; discriminate.
  - intros [= <-]. auto.
  - intros [-> _]. reflexivity.
Qed.



Lemma hex_digit_safe (d : N) : d < 16 -> mem (hex_digit d) always_safe = true.
Proof.
  intros H.
  pose proof (below_256 (fun d => negb (d <? 16) || mem (hex_digit d) always_safe)) as G.
  specialize (G ltac:(vm_compute; reflexivity) d ltac:(lia)).
  cbv beta in G. destruct (N.ltb_spec d 16); [exact G | lia].
Qed.

(** What [quote] writes: safe characters and percent signs only. *)
Lemma quoter_chars (safe : pystr) (b : N) :
  b < 256 ->
  Forall (fun c => mem c (always_safe ++ safe) = true \/ c = 37) (quoter safe b).
Proof.
  intros Hb. unfold quoter.
  destruct (mem b (always_safe ++ safe)) eqn:E.
  - apply Forall_cons; [now left | apply Forall_nil].
  - assert (b / 16 < 16) by (apply N.Div0.div_lt_upper_bound; lia).
    assert (b mod 16 < 16) by (apply N.mod_lt; lia).
    apply Forall_cons; [now right|].
    apply Forall_cons; [left; rewrite mem_app, hex_digit_safe by assumption; reflexivity|].
    apply Forall_cons; [left; rewrite mem_app, hex_digit_safe by assumption; reflexivity|].
    apply Forall_nil.
Qed.

Lemma quote_from_bytes_chars (safe : pystr) (bs : list N) :
  Forall (fun b => b < 256) bs ->
  Forall (fun c => mem c (always_safe ++ safe) = true \/ c = 37)
         (quote_from_bytes bs safe).
Proof.
  unfold quote_from_bytes.
  induction 1 as [|b bs Hb _ IH]; simpl.
  - constructor.
  - apply Forall_app. split; [now apply quoter_chars | exact IH].
Qed.

Lemma quote_chars (s safe t : pystr) :
  quote s safe = Return t ->
  Forall (fun c => mem c (always_safe ++ safe) = true \/ c = 37) t.
Proof.
  unfold quote. destruct (utf8_encode s) as [bs|] eqn:E; [|discriminate].
  intros [= <-]. apply quote_from_bytes_chars.
  eapply utf8_encode_bytes; eassumption.
Qed.

(** With [safe=""] every character written is plain. *)
Lemma quote_all_plain (s t : pystr) :
  quote s [] = Return t -> forallb plain t = true.
Proof.
  intros E. apply quote_chars in E. apply forallb_forall. intros c Hc.
  rewrite Forall_forall in E. specialize (E c Hc). unfold plain.
  rewrite app_nil_r in E. destruct E as [-> | ->]; [reflexivity|].
  apply orb_true_r.
Qed.

(** With the default [safe="/"] the slash is written as well. *)
Lemma quote_default_plain_or_slash (s t : pystr) :
  quote s safe_default = Return t ->
  forallb (fun c => plain c || (c =? 47)) t = true.
Proof.
  intros E. apply quote_chars in E. apply forallb_forall. intros c Hc.
  rewrite Forall_forall in E. specialize (E c Hc). unfold plain.
  rewrite mem_app in E. destruct E as [E | ->]; [|reflexivity].
  apply orb_true_iff in E. destruct E as [-> | E]; [reflexivity|].
  apply mem_In in E. destruct E as [<- | []]. apply orb_true_r.
Qed.


(** Percent-encoding loses nothing: the bytes come back. *)
Lemma unquote_quoter (safe : pystr) (b : N) (rest : pystr) :
  mem 37 safe = false -> b < 256 ->
  unquote_to_bytes (quoter safe b ++ rest) = b :: unquote_to_bytes rest.
Proof.
  intros Hs Hb. unfold quoter.
  destruct (mem b (always_safe ++ safe)) eqn:E.
  - simpl. destruct (N.eqb_spec b 37) as [->|]; [|reflexivity].
    rewrite mem_app, Hs in E. discriminate.
  - cbn [app unquote_to_bytes]. rewrite N.eqb_refl. f_equal.
    apply N.eqb_eq.
    exact (below_256
      (fun b => 16 * hex_value (hex_digit (b / 16)) + hex_value (hex_digit (b mod 16)) =? b)
      ltac:(vm_compute; reflexivity) Hb).
Qed.

Lemma unquote_quote_from_bytes (safe : pystr) (bs : list N) :
  mem 37 safe = false -> Forall (fun b => b < 256) bs ->
  unquote_to_bytes (quote_from_bytes bs safe) = bs.
Proof.
  intros Hs. unfold quote_from_bytes.
  induction 1 as [|b bs Hb _ IH]; [reflexivity|].
  simpl List.concat. simpl map. cbn [List.concat].
  rewrite unquote_quoter by assumption. now rewrite IH.
Qed.

Lemma unquote_quote (s safe t : pystr) :
  mem 37 safe = false ->
  quote s safe = Return t -> utf8_encode s = Some (unquote_to_bytes t).
Proof.
  intros Hs. unfold quote.
  destruct (utf8_encode s) as [bs|] eqn:E; [|discriminate].
  intros [= <-]. rewrite unquote_quote_from_bytes; [reflexivity | assumption |].
  eapply utf8_encode_bytes; eassumption.
Qed.

(** ** Commas *)

Lemma commas_app (s t : pystr) : commas (s ++ t) = (commas s + commas t)%nat.
Proof. unfold commas. now rewrite filter_app, length_app. Qed.

Lemma commas_none (s : pystr) :
  forallb (fun c => plain c || (c =? 47)) s = true -> commas s = 0%nat.
Proof.
  unfold commas. induction s as [|c s IH]; [reflexivity|].
  cbn [forallb filter]. intros H. apply andb_true_iff in H. destruct H as [Hc Hs].
  destruct (N.eqb_spec 44 c) as [<-|]; [vm_compute in Hc; discriminate|]. now apply IH.
Qed.

Lemma plain_weaken (s : pystr) :
  forallb plain s = true -> forallb (fun c => plain c || (c =? 47)) s = true.
Proof.
  rewrite !forallb_forall. intros H c Hc. now rewrite H.
Qed.

(** ** The URL builder *)

Lemma traverse_Forall2 (A B : Type) (f : A -> result B) (xs : list A) :
  forall ys, traverse f xs = Return ys -> Forall2 (fun x y => f x = Return y) xs ys.
Proof.
  induction xs as [|x xs IH]; simpl; intros ys E.
  - injection E as <-. constructor.
  - destruct (f x) as [y|] eqn:Ex; [|discriminate]. simpl in E.
    destruct (traverse f xs) as [ys'|]; [|discriminate]. simpl in E.
    injection E as <-. constructor; auto.
Qed.

Lemma traverse_quote_Raise (safe : pystr) (vs : list atom) (e : exn) :
  traverse (fun a => quote (str a) safe) vs = Raise e -> e = UnicodeEncodeError.
Proof.
  induction vs as [|v vs IH]; simpl; [discriminate|].
  destruct (quote (str v) safe) as [t|e'] eqn:E; simpl.
  - destruct (traverse _ vs); simpl; [discriminate|].
    intros [= <-]. now apply IH.
  - intros [= <-]. now apply quote_Raise in E.
Qed.

Lemma lower_str_bool (b : bool) :
  lower (str (ABool b)) = if b then lit "true" else lit "false".
Proof. destruct b; reflexivity. Qed.

Lemma described_entry_eq (key : pystr) (v : value) :
  described_entry (key, v) =
  (k <- quote key safe_default ;; t <- described_value v ;; Return (k ++ lit "=" ++ t)).
Proof. reflexivity. Qed.

(** The loop of [_build_url] appends, in order, the text of every entry
    that is present. *)
Lemma _build_url_loop_described (items : params_t) :
  forall parts,
    HttpClient._build_url_loop items parts =
    (ps <- traverse described_entry (filter is_present items) ;; Return (parts ++ ps)).
Proof.
  induction items as [|[key v] rest IH]; intros parts.
  - simpl. now rewrite app_nil_r.
  - destruct v as [a|vs]; [destruct a as [|b|n|r|s]|];
      cbn [HttpClient._build_url_loop filter is_present snd traverse];
      try rewrite described_entry_eq; cbn [described_value].
    + apply IH.
    + destruct (quote key safe_default) as [k|e]; cbn [bind]; [|reflexivity].
      rewrite IH, lower_str_bool.
      destruct b; cbn [bind];
        destruct (traverse described_entry (filter is_present rest));
        cbn [bind]; try reflexivity; now rewrite <- app_assoc.
    + destruct (quote key safe_default) as [k|e]; cbn [bind]; [|reflexivity].
      destruct (quote (str (AInt n)) []) as [t|e]; cbn [bind]; [|reflexivity].
      rewrite IH.
      destruct (traverse described_entry (filter is_present rest));
        cbn [bind]; try reflexivity; now rewrite <- app_assoc.
    + destruct (quote key safe_default) as [k|e]; cbn [bind]; [|reflexivity].
      destruct (quote (str (AFloat r)) []) as [t|e]; cbn [bind]; [|reflexivity].
      rewrite IH.
      destruct (traverse described_entry (filter is_present rest));
        cbn [bind]; try reflexivity; now rewrite <- app_assoc.
    + destruct (quote key safe_default) as [k|e]; cbn [bind]; [|reflexivity].
      destruct (quote (str (AStr s)) []) as [t|e]; cbn [bind]; [|reflexivity].
      rewrite IH.
      destruct (traverse described_entry (filter is_present rest));
        cbn [bind]; try reflexivity; now rewrite <- app_assoc.
    + destruct (traverse (fun a => quote (str a) []) vs) as [elems|e1] eqn:E1;
        destruct (quote key safe_default) as [k|e2] eqn:E2; cbn [bind];
        try reflexivity.
      * rewrite IH.
        destruct (traverse described_entry (filter is_present rest));
          cbn [bind]; try reflexivity; now rewrite <- app_assoc.
      * apply traverse_quote_Raise in E1. apply quote_Raise in E2.
        destruct E2 as [-> _]. now subst.
Qed.

Lemma _build_url_described (self : HttpClient.t) (path : pystr) (params : params_t) :
  HttpClient._build_url self path (Some params) =
  described_url (HttpClient._base_url self ++ path) params.
Proof.
  unfold HttpClient._build_url, described_url.
  destruct params as [|kv rest]; [reflexivity|].
  rewrite _build_url_loop_described.
  destruct (traverse described_entry (filter is_present (kv :: rest))) as [ps|e];
    reflexivity.
Qed.

Lemma filter_present_skip (before after : params_t) (key : pystr) :
  filter is_present (before ++ (key, Atom ANone) :: after) =
  filter is_present (before ++ after).
Proof. now rewrite !filter_app. Qed.

Lemma get_first_request `{Builtins} (self : HttpClient.t) (path : pystr)
  (params : option params_t) :
  first_request (HttpClient.get self path params) =
  match HttpClient._build_url self path params with
  | Return url => Some (HttpClient.request self url)
  | Raise _ => None
  end.
Proof.
  unfold HttpClient.get. now destruct (HttpClient._build_url self path params).
Qed.

(** C1. The URL builder writes the query string the specification
    describes: entries whose value is null are left out, a boolean is
    written [true] or [false], a list is one parameter of its percent-encoded
    elements joined by commas, any other value is its string form
    percent-encoded, and the entries keep the order of the mapping; a null
    entry anywhere in the mapping changes nothing; and
    [stores.search(keyword="fitness", has_ads=True)] asks for
    [/stores?keyword=fitness&has_ads=true]. *)
Theorem C1_query_string_as_described `{Builtins} :
  (forall self path params,
     HttpClient._build_url self path (Some params) =
     described_url (HttpClient._base_url self ++ path) params)
  /\ (forall self path before key after,
        HttpClient._build_url self path (Some (before ++ (key, Atom ANone) :: after)) =
        HttpClient._build_url self path (Some (before ++ after)))
  /\ (forall http,
        sent_url (StoresResource.search http (Some (lit "fitness")) None None None
                    None None None None (Some true) None None) =
        Some ((HttpClient._base_url http ++ lit "/stores")
                ++ lit "?keyword=fitness&has_ads=true")).
Proof.
  split; [|split].
  - apply _build_url_described.
  - intros. rewrite !_build_url_described. unfold described_url.
    now rewrite filter_present_skip.
  - intros http. unfold sent_url, StoresResource.search.
    rewrite get_first_request, _build_url_described. reflexivity.
Qed.

(** ** Keys, values and commas *)

Lemma traverse_quote_plain (vs : list atom) :
  forall elems,
    traverse (fun a => quote (str a) []) vs = Return elems ->
    Forall2 (fun a e => quote (str a) [] = Return e /\ forallb plain e = true) vs elems.
Proof.
  intros elems E. apply traverse_Forall2 in E.
  induction E as [|a e vs elems Hae _ IH]; constructor; [|exact IH].
  split; [assumption | eapply quote_all_plain; eassumption].
Qed.

Lemma described_value_encoded (v : value) (t : pystr) :
  described_value v = Return t -> encoded_value v t.
Proof.
  destruct v as [a|vs]; [destruct a as [|b|n|r|s]|]; cbn [described_value encoded_value].
  - intros E. split; [assumption | eapply quote_all_plain; eassumption].
  - destruct b; now intros [= <-].
  - intros E. split; [assumption | eapply quote_all_plain; eassumption].
  - intros E. split; [assumption | eapply quote_all_plain; eassumption].
  - intros E. split; [assumption | eapply quote_all_plain; eassumption].
  - intros E. apply bind_Return_inv in E. destruct E as (elems & E1 & [= <-]).
    exists elems. split; [reflexivity | now apply traverse_quote_plain].
Qed.

Lemma described_entry_encoded (kv : pystr * value) (part : pystr) :
  described_entry kv = Return part -> encoded_entry kv part.
Proof.
  unfold described_entry. intros E.
  apply bind_Return_inv in E. destruct E as (k & Ek & E).
  apply bind_Return_inv in E. destruct E as (t & Et & [= <-]).
  exists k, t. repeat split; try assumption.
  - eapply quote_default_plain_or_slash; eassumption.
  - now apply described_value_encoded.
Qed.

Lemma commas_join_comma (elems : list pystr) :
  Forall (fun e => commas e = 0%nat) elems ->
  commas (join (lit ",") elems) = pred (List.length elems).
Proof.
  induction 1 as [|e elems He Hes IH]; [reflexivity|].
  destruct elems as [|e' elems'].
  - simpl. exact He.
  - change (join (lit ",") (e :: e' :: elems'))
      with (e ++ lit "," ++ join (lit ",") (e' :: elems')).
    rewrite !commas_app, He, IH. reflexivity.
Qed.

Lemma commas_join_amp (parts : list pystr) :
  commas (join (lit "&") parts) = list_sum (map commas parts).
Proof.
  induction parts as [|p parts IH]; [reflexivity|].
  destruct parts as [|p' parts'].
  - simpl. lia.
  - change (join (lit "&") (p :: p' :: parts'))
      with (p ++ lit "&" ++ join (lit "&") (p' :: parts')).
    rewrite !commas_app, IH. reflexivity.
Qed.

(** The commas of one entry are the separators of its list value. *)
Lemma commas_encoded_entry (kv : pystr * value) (part : pystr) :
  encoded_entry kv part ->
  commas part = match snd kv with VList vs => pred (List.length vs) | _ => 0%nat end.
Proof.
  intros (k & t & -> & _ & Hk & Hv).
  rewrite !commas_app, (commas_none _ Hk). change (commas (lit "=")) with 0%nat.
  destruct (snd kv) as [a|vs]; cbn [encoded_value] in Hv.
  - destruct a as [|b|n|r|s];
      [ | subst t; now destruct b | | | ];
      destruct Hv as [_ Hv]; now rewrite (commas_none _ (plain_weaken _ Hv)).
  - destruct Hv as (elems & -> & Hall).
    rewrite commas_join_comma.
    + now rewrite (Forall2_length Hall).
    + clear -Hall. induction Hall as [|a e vs elems [_ He] _ IH]; constructor; [|exact IH].
      apply commas_none, plain_weaken, He.
Qed.

Lemma list_separators_present (params : params_t) :
  list_separators (filter is_present params) = list_separators params.
Proof.
  induction params as [|[key v] rest IH]; [reflexivity|].
  destruct v as [[|b|n|r|s]|vs]; cbn [filter is_present snd list_separators];
    now rewrite ?IH.
Qed.

Lemma commas_entries (entries : params_t) (parts : list pystr) :
  Forall2 encoded_entry entries parts ->
  list_sum (map commas parts) = list_separators entries.
Proof.
  induction 1 as [|[key v] part entries parts He _ IH]; [reflexivity|].
  apply commas_encoded_entry in He. rewrite map_cons.
  change (list_sum (commas part :: map commas parts))
    with (commas part + list_sum (map commas parts))%nat.
  rewrite He, IH. destruct v as [a|vs]; reflexivity.
Qed.

Lemma sent_url_get `{Builtins} (self : HttpClient.t) (path : pystr)
  (params : option params_t) :
  sent_url (HttpClient.get self path params) =
  match HttpClient._build_url self path params with
  | Return url => Some url
  | Raise _ => None
  end.
Proof.
  unfold sent_url. rewrite get_first_request.
  now destruct (HttpClient._build_url self path params).
Qed.

(** C6, as amended. Keys and values are percent-encoded one by one: in a
    value (a scalar, or each element of a list) every character that is not
    unreserved is escaped; in a key the same holds except that the slash is
    written as it is; the comma appears in a query string only as the
    separator inside a joined list value; and
    [stores.compare(["a.com", "b.com"])] asks for [domains=a.com,b.com]. *)
Theorem C6_entries_percent_encoded `{Builtins} :
  (forall self path params url,
     HttpClient._build_url self path (Some params) = Return url ->
     exists parts,
       Forall2 encoded_entry (filter is_present params) parts
       /\ commas (join (lit "&") parts) = list_separators params
       /\ url = match parts with
                | [] => HttpClient._base_url self ++ path
                | _ => (HttpClient._base_url self ++ path)
                         ++ lit "?" ++ join (lit "&") parts
                end)
  /\ (forall http,
        sent_url (StoresResource.compare http [lit "a.com"; lit "b.com"]) =
        Some ((HttpClient._base_url http ++ lit "/stores/compare")
                ++ lit "?domains=a.com,b.com")).
Proof.
  split.
  - intros self path params url E.
    rewrite _build_url_described in E. unfold described_url in E.
    apply bind_Return_inv in E. destruct E as (parts & Ep & E).
    exists parts.
    assert (Hall : Forall2 encoded_entry (filter is_present params) parts).
    { apply traverse_Forall2 in Ep. revert Ep.
      apply Forall2_impl. exact described_entry_encoded. }
    split; [exact Hall|]. split.
    + rewrite commas_join_amp, (commas_entries Hall). apply list_separators_present.
    + destruct parts; now injection E as <-.
  - intros http. unfold StoresResource.compare.
    rewrite sent_url_get, _build_url_described. reflexivity.
Qed.

(** The theorem at work: a key with a comma and a list of two elements,
    one of them with a comma and a slash. *)
Lemma C6_entries_percent_encoded_witness :
  exists parts,
    Forall2 encoded_entry
      (filter is_present
         [ (lit "a,b", VList [AStr (lit "x,y"); AStr (lit "p/q")]);
           (lit "skip", Atom ANone) ]) parts
    /\ commas (join (lit "&") parts) = 1%nat
    /\ lit "https://api.usecart.com/v1/stores?a%2Cb=x%2Cy,p%2Fq" =
       match parts with
       | [] => HttpClient._base_url scenario_http ++ lit "/stores"
       | _ => (HttpClient._base_url scenario_http ++ lit "/stores")
                ++ lit "?" ++ join (lit "&") parts
       end.
Proof.
  exact (proj1 (@C6_entries_percent_encoded ascii_builtins)
           scenario_http (lit "/stores")
           [ (lit "a,b", VList [AStr (lit "x,y"); AStr (lit "p/q")]);
             (lit "skip", Atom ANone) ]
           (lit "https://api.usecart.com/v1/stores?a%2Cb=x%2Cy,p%2Fq")
           eq_refl).
Defined.

(** C6, as first stated, fails on a key that holds a slash: the slash is a
    reserved character and the transport writes it unescaped. *)
Lemma C6_counterexample_slash_in_key :
  HttpClient._build_url scenario_http (lit "/stores")
    (Some [ (lit "a/b", Atom (AStr (lit "x"))) ]) =
  Return (lit "https://api.usecart.com/v1/stores?a/b=x")
  /\ quote (lit "a/b") safe_default = Return (lit "a/b")
  /\ ~ (forall c, In c (lit "a/b") -> mem c reserved = false).
Proof.
  split; [reflexivity|]. split; [reflexivity|].
  intros H. specialize (H 47 ltac:(vm_compute; tauto)). discriminate H.
Qed.

(** ** Path segments *)

Lemma _build_url_shape (self : HttpClient.t) (path : pystr)
  (params : option params_t) (url : pystr) :
  HttpClient._build_url self path params = Return url ->
  exists query,
    url = (HttpClient._base_url self ++ path) ++ query
    /\ (query = [] \/ exists q, query = lit "?" ++ q).
Proof.
  unfold HttpClient._build_url.
  destruct params as [[|kv rest]|].
  - intros [= <-]. exists []. now rewrite app_nil_r; auto.
  - destruct (HttpClient._build_url_loop (kv :: rest) []) as [[|p ps]|e];
      cbn [bind]; try discriminate.
    + intros [= <-]. exists []. now rewrite app_nil_r; auto.
    + intros [= <-]. eexists. split; [reflexivity|]. right. eexists. reflexivity.
  - intros [= <-]. exists []. now rewrite app_nil_r; auto.
Qed.





(** ** Requests do not depend on the state of the client *)

Lemma _build_url_base (self self' : HttpClient.t) (path : pystr)
  (params : option params_t) :
  HttpClient._base_url self = HttpClient._base_url self' ->
  HttpClient._build_url self path params = HttpClient._build_url self' path params.
Proof. unfold HttpClient._build_url. now intros ->. Qed.

Lemma sent_url_get_base (B1 B2 : Builtins) (self self' : HttpClient.t)
  (path : pystr) (params : option params_t) :
  HttpClient._base_url self = HttpClient._base_url self' ->
  sent_url (@HttpClient.get B1 self path params) =
  sent_url (@HttpClient.get B2 self' path params).
Proof.
  intros E. rewrite !sent_url_get. now rewrite (_build_url_base _ _ _ _ E).
Qed.

Lemma sent_url_get_at_base (B1 B2 : Builtins) (self self' : HttpClient.t)
  (before segment after : pystr) (params : option params_t) :
  HttpClient._base_url self = HttpClient._base_url self' ->
  sent_url (@get_at B1 self before segment after params) =
  sent_url (@get_at B2 self' before segment after params).
Proof.
  intros E. unfold get_at.
  destruct (_encode segment); [now apply sent_url_get_base | reflexivity].
Qed.

Lemma sent_url_invoke_base (B1 B2 : Builtins) (http1 http2 : HttpClient.t)
  (c : api_call) :
  HttpClient._base_url http1 = HttpClient._base_url http2 ->
  sent_url (@invoke B1 http1 c) = sent_url (@invoke B2 http2 c).
Proof.
  intros E. destruct c; cbn [invoke];
    first [ now apply sent_url_get_at_base | now apply sent_url_get_base ].
Qed.

(** ** The transport: rate-limit headers *)

Lemma _parse_rate_limit_headers_eq `{Builtins} (resp : Response) (self : HttpClient.t) :
  HttpClient._parse_rate_limit_headers resp self =
  match resp_headers resp (lit "X-RateLimit-Remaining"),
        resp_headers resp (lit "X-RateLimit-Limit") with
  | Some remaining, Some limit =>
      match int remaining with
      | None => (self, Raise (IntValueError remaining))
      | Some r =>
          match int limit with
          | None => (self, Raise (IntValueError limit))
          | Some l =>
              (HttpClient.Make (HttpClient._api_key self) (HttpClient._base_url self)
                 (Some (RateLimitInfo.Make r l)), Return tt)
          end
      end
  | _, _ => (self, Return tt)
  end.
Proof.
  unfold HttpClient._parse_rate_limit_headers.
  destruct (resp_headers resp (lit "X-RateLimit-Remaining")) as [remaining|];
    [|reflexivity].
  destruct (resp_headers resp (lit "X-RateLimit-Limit")) as [limit|];
    [|reflexivity].
  unfold st_bind, st_lift, HttpClient.to_int, HttpClient.set_rate_limit.
  destruct (int remaining); [|reflexivity].
  destruct (int limit); reflexivity.
Qed.

(** The headers touch nothing but the cache, and leave it as the
    specification says. *)
Lemma _parse_rate_limit_headers_state `{Builtins} (resp : Response) (self : HttpClient.t) :
  let self' := fst (HttpClient._parse_rate_limit_headers resp self) in
  HttpClient._api_key self' = HttpClient._api_key self
  /\ HttpClient._base_url self' = HttpClient._base_url self
  /\ HttpClient.rate_limit self' = cache_after (HttpClient.rate_limit self) resp.
Proof.
  rewrite _parse_rate_limit_headers_eq. unfold cache_after.
  destruct (resp_headers resp (lit "X-RateLimit-Remaining")) as [remaining|];
    [|now repeat split].
  destruct (resp_headers resp (lit "X-RateLimit-Limit")) as [limit|];
    [|now repeat split].
  destruct (int remaining); [|now repeat split].
  destruct (int limit); now repeat split.
Qed.

(** What a call leaves behind once the network has answered. *)
Lemma run_get `{Builtins} (self : HttpClient.t) (path : pystr)
  (params : option params_t) (server : Request -> reply) :
  run (HttpClient.get self path params) server =
  match HttpClient._build_url self path params with
  | Raise e => ([], (self, Raise e))
  | Return url =>
      (match server (HttpClient.request self url) with
       | Rejected => []
       | _ => [HttpClient.request self url]
       end,
       match server (HttpClient.request self url) with
       | Success resp =>
           match HttpClient._parse_rate_limit_headers resp self with
           | (self', Return _) =>
               (self', body <- HttpClient.read_json resp ;;
                       HttpClient._parse_response body)
           | (self', Raise e) => (self', Raise e)
           end
       | HTTPError exc =>
           match HttpClient._parse_rate_limit_headers exc self with
           | (self', Return _) =>
               (self', Raise (HttpClient._handle_error_response self' exc))
           | (self', Raise e) => (self', Raise e)
           end
       | Failure => (self, Raise TransportError)
       | Rejected => (self, Raise (ValueError (UnknownUrlType url)))
       end)
  end.
Proof.
  unfold HttpClient.get.
  destruct (HttpClient._build_url self path params) as [url|e]; [|reflexivity].
  cbn [run].
  destruct (server (HttpClient.request self url)) as [resp|exc| |]; cbn [run].
  - unfold st_bind, st_lift.
    destruct (HttpClient._parse_rate_limit_headers resp self) as [self' [[]|e]];
      [|reflexivity].
    destruct (HttpClient.read_json resp); reflexivity.
  - unfold st_bind, st_lift, st_read.
    destruct (HttpClient._parse_rate_limit_headers exc self) as [self' [[]|e]];
      reflexivity.
  - reflexivity.
  - reflexivity.
Qed.

(** C2. After a response, success or error, the cache holds the two parsed
    integers when both headers are there and both parse, and what it held
    before in every other case, whatever the call then returns or raises. *)
Theorem C2_rate_limit_cache `{Builtins} :
  forall self path params url server resp,
    HttpClient._build_url self path params = Return url ->
    server (HttpClient.request self url) = Success resp
    \/ server (HttpClient.request self url) = HTTPError resp ->
    HttpClient.rate_limit (fst (snd (run (HttpClient.get self path params) server))) =
    cache_after (HttpClient.rate_limit self) resp.
Proof.
  intros self path params url server resp Eu Es.
  rewrite run_get, Eu. cbn [snd].
  pose proof (_parse_rate_limit_headers_state resp self) as (_ & _ & Hc).
  destruct Es as [-> | ->];
    destruct (HttpClient._parse_rate_limit_headers resp self) as [self' [[]|e]];
    exact Hc.
Qed.

Lemma C2_rate_limit_cache_witness :
  HttpClient.rate_limit
    (fst (snd (run (@HttpClient.get ascii_builtins scenario_http (lit "/stores") None)
                   (fun _ => HTTPError too_many_requests)))) =
  Some (RateLimitInfo.Make 0 100).
Proof.
  exact (@C2_rate_limit_cache ascii_builtins scenario_http (lit "/stores") None
           (lit "https://api.usecart.com/v1/stores")
           (fun _ => HTTPError too_many_requests) too_many_requests
           eq_refl (or_intror eq_refl)).
Defined.

(** One header alone leaves the cache as it was, and so do two headers of
    which one is no integer, where [int] raises. *)
Example one_header_keeps_cache :
  run (@HttpClient.get ascii_builtins
         (HttpClient.Make (lit "cart_sk_test") (lit "https://api.usecart.com/v1")
            (Some (RateLimitInfo.Make 7 100)))
         (lit "/account") None)
      (fun _ => Success {| resp_code := 200;
                           resp_headers := headers_of [ (lit "X-RateLimit-Limit", lit "50") ];
                           resp_body := Parsed (JObject []) |}) =
  ([HttpClient.request
      (HttpClient.Make (lit "cart_sk_test") (lit "https://api.usecart.com/v1")
         (Some (RateLimitInfo.Make 7 100)))
      (lit "https://api.usecart.com/v1/account")],
   (HttpClient.Make (lit "cart_sk_test") (lit "https://api.usecart.com/v1")
      (Some (RateLimitInfo.Make 7 100)),
    Return (ApiResponse.Make JNull
              (ApiResponseMeta.Make (JStr []) (JStr []) (JInt 0) (JInt 0) (JInt 0))
              (ApiResponseUsage.Make (JInt 0) (JInt 0))))).
Proof. vm_compute. reflexivity. Qed.

Example unparseable_header_keeps_cache :
  snd (run (@HttpClient.get ascii_builtins
              (HttpClient.Make (lit "cart_sk_test") (lit "https://api.usecart.com/v1")
                 (Some (RateLimitInfo.Make 7 100)))
              (lit "/account") None)
           (fun _ => Success {| resp_code := 200;
                                resp_headers :=
                                  headers_of [ (lit "X-RateLimit-Limit", lit "50");
                                               (lit "X-RateLimit-Remaining", lit "many") ];
                                resp_body := Parsed (JObject []) |})) =
  (HttpClient.Make (lit "cart_sk_test") (lit "https://api.usecart.com/v1")
     (Some (RateLimitInfo.Make 7 100)),
   Raise (IntValueError (lit "many"))).
Proof. vm_compute. reflexivity. Qed.

(** ** The transport: error responses *)

Lemma dict_get_member (d : list (pystr * json)) (key : pystr) (default : json) :
  dict_get d key default =
  match member d key with Some v => v | None => default end.
Proof.
  induction d as [|[k v] d IH]; [reflexivity|].
  simpl. now destruct (pystr_eqb k key).
Qed.

(** The [try] of [_handle_error_response] with its [except]: when
    [json.loads] reads the body or refuses it as no JSON, it ends with the
    three variables resolved from the error object. *)
Lemma _handle_error_response_try_resolved (exc : Response) :
  json_read (resp_body exc) = true ->
  try_except_pass (HttpClient._handle_error_response_try exc) HttpClient.caught
    (resolved (resp_code exc) NotJSON) =
  (resolved (resp_code exc) (resp_body exc), Return tt).
Proof.
  intros Hb.
  unfold try_except_pass, HttpClient._handle_error_response_try, HttpClient.read_json,
    resolved, error_object.
  destruct (resp_body exc) as [j| | | | |]; try discriminate Hb; [|reflexivity].
  destruct j as [|b|n|r|s|l|d]; try reflexivity.
  unfold st_bind, st_lift, py_get. rewrite dict_get_member.
  destruct (member d (lit "error")) as [error|]; [|reflexivity].
  destruct error as [|b|n|r|s|l|e]; cbn [truthy];
    try reflexivity;
    try (match goal with |- context [if ?c then _ else _] => destruct c end; reflexivity).
  destruct e as [|kv e]; [reflexivity|].
  unfold st_read, st_write. cbn [HttpClient.code HttpClient.message HttpClient.request_id].
  now rewrite !dict_get_member.
Qed.

Lemma _handle_error_response_not_utf8 `{Builtins} (self : HttpClient.t) (exc : Response) :
  resp_body exc = NotUTF8 ->
  HttpClient._handle_error_response self exc = UnicodeDecodeError.
Proof.
  intros E. unfold HttpClient._handle_error_response, try_except_pass,
    HttpClient._handle_error_response_try, HttpClient.read_json.
  now rewrite E.
Qed.

(** Whatever else reading the body raises leaves the method as it is: no
    typed error is raised. *)
Lemma _handle_error_response_unread `{Builtins} (self : HttpClient.t) (exc : Response)
  (e : Errors.t) :
  json_read (resp_body exc) = false ->
  HttpClient._handle_error_response self exc <> CartError e.
Proof.
  intros E. unfold HttpClient._handle_error_response, try_except_pass,
    HttpClient._handle_error_response_try, HttpClient.read_json.
  destruct (resp_body exc); try discriminate E; discriminate.
Qed.

(** Which error a response is turned into, when [json.loads] reads its
    body or refuses it as no JSON. *)
Lemma _handle_error_response_eq `{Builtins} (self : HttpClient.t) (exc : Response) :
  json_read (resp_body exc) = true ->
  HttpClient._handle_error_response self exc =
  let status := resp_code exc in
  let vars := resolved status (resp_body exc) in
  if (status =? 401)%Z then
    CartError (Errors.CartAuthError (HttpClient.message vars) (HttpClient.request_id vars))
  else if (status =? 429)%Z then
    match resp_headers exc (lit "Retry-After") with
    | Some (c :: h) =>
        match int (c :: h) with
        | Some n =>
            CartError (Errors.CartRateLimitError
              (HttpClient.message vars) (HttpClient.request_id vars) (Some n)
              (option_map RateLimitInfo.limit (HttpClient.rate_limit self))
              (option_map RateLimitInfo.remaining (HttpClient.rate_limit self)))
        | None => IntValueError (c :: h)
        end
    | _ =>
        CartError (Errors.CartRateLimitError
          (HttpClient.message vars) (HttpClient.request_id vars) None
          (option_map RateLimitInfo.limit (HttpClient.rate_limit self))
          (option_map RateLimitInfo.remaining (HttpClient.rate_limit self)))
    end
  else
    CartError (Errors.CartApiError (HttpClient.message vars) status
                 (HttpClient.code vars) (HttpClient.request_id vars)).
Proof.
  intros Hb. unfold HttpClient._handle_error_response.
  change (HttpClient.Locals (JStr (lit "unknown_error"))
            (JStr (lit "Cart API error: " ++ str_int (resp_code exc))) JNull)
    with (resolved (resp_code exc) NotJSON).
  rewrite (_handle_error_response_try_resolved _ Hb). cbv zeta.
  destruct (resp_code exc =? 401)%Z; [reflexivity|].
  destruct (resp_code exc =? 429)%Z; [|reflexivity].
  destruct (resp_headers exc (lit "Retry-After")) as [[|c h]|]; try reflexivity.
  unfold HttpClient.to_int. destruct (int (c :: h)); reflexivity.
Qed.

(** A 401 whose body [json.loads] reads, or refuses as no JSON, is an auth
    error, with the fixed status and code and the message and request id of
    the body. *)
Lemma unauthorized_is_auth_error `{Builtins} (self : HttpClient.t) (exc : Response) :
  resp_code exc = 401%Z -> json_read (resp_body exc) = true ->
  HttpClient._handle_error_response self exc =
  CartError (Errors.Auth
    {| Errors.message := HttpClient.message (resolved 401 (resp_body exc));
       Errors.status := 401;
       Errors.code := JStr (lit "auth_error");
       Errors.request_id := HttpClient.request_id (resolved 401 (resp_body exc)) |}).
Proof.
  intros Ec Hb. rewrite (_handle_error_response_eq _ _ Hb), Ec. reflexivity.
Qed.

Example unauthorized_scenario `{Builtins} (self : HttpClient.t) :
  HttpClient._handle_error_response self unauthorized =
  CartError (Errors.Auth
    {| Errors.message := JStr (lit "bad key");
       Errors.status := 401;
       Errors.code := JStr (lit "auth_error");
       Errors.request_id := JStr (lit "req_1") |}).
Proof. reflexivity. Qed.

(** C4, at the input where the code leaves it: a 401 whose body is not
    UTF-8 raises [UnicodeDecodeError], which the [except] clause does not
    list, and no auth error. *)
Theorem C4_unauthorized_not_utf8_raises_UnicodeDecodeError `{Builtins} :
  (forall self,
     HttpClient._handle_error_response self unauthorized_not_utf8 = UnicodeDecodeError)
  /\ (forall self path params url,
        HttpClient._build_url self path params = Return url ->
        run (HttpClient.get self path params) (fun _ => HTTPError unauthorized_not_utf8) =
        ([HttpClient.request self url], (self, Raise UnicodeDecodeError))).
Proof.
  split; [reflexivity|].
  intros self path params url E. rewrite run_get, E. reflexivity.
Qed.

Lemma C4_unauthorized_not_utf8_raises_UnicodeDecodeError_witness :
  run (@HttpClient.get ascii_builtins scenario_http (lit "/account") None)
      (fun _ => HTTPError unauthorized_not_utf8) =
  ([HttpClient.request scenario_http (lit "https://api.usecart.com/v1/account")],
   (scenario_http, Raise UnicodeDecodeError)).
Proof.
  exact (proj2 (@C4_unauthorized_not_utf8_raises_UnicodeDecodeError ascii_builtins)
           scenario_http (lit "/account") None
           (lit "https://api.usecart.com/v1/account") eq_refl).
Defined.

(** Any other status, with a body that [json.loads] reads or refuses as no
    JSON, is the base error with the status of the response and what the
    body resolves to; a body that is not JSON, or has no error object,
    resolves to the fallbacks. *)
Lemma other_status_is_base_error `{Builtins} (self : HttpClient.t) (exc : Response) :
  resp_code exc <> 401%Z -> resp_code exc <> 429%Z ->
  json_read (resp_body exc) = true ->
  HttpClient._handle_error_response self exc =
  CartError (Errors.Api
    {| Errors.message := HttpClient.message (resolved (resp_code exc) (resp_body exc));
       Errors.status := resp_code exc;
       Errors.code := HttpClient.code (resolved (resp_code exc) (resp_body exc));
       Errors.request_id :=
         HttpClient.request_id (resolved (resp_code exc) (resp_body exc)) |}).
Proof.
  intros H1 H2 Hb. rewrite (_handle_error_response_eq _ _ Hb). cbv zeta.
  destruct (Z.eqb_spec (resp_code exc) 401); [contradiction|].
  destruct (Z.eqb_spec (resp_code exc) 429); [contradiction|]. reflexivity.
Qed.

Lemma resolved_fallback (status : Z) (body : body_outcome) :
  error_object body = None ->
  resolved status body =
  HttpClient.Locals (JStr (lit "unknown_error"))
    (JStr (lit "Cart API error: " ++ str_int status)) JNull.
Proof. unfold resolved. now intros ->. Qed.

Example fallback_scenario `{Builtins} (self : HttpClient.t) :
  HttpClient._handle_error_response self
    {| resp_code := 503; resp_headers := headers_of []; resp_body := NotJSON |} =
  CartError (Errors.Api
    {| Errors.message := JStr (lit "Cart API error: 503");
       Errors.status := 503;
       Errors.code := JStr (lit "unknown_error");
       Errors.request_id := JNull |}).
Proof. reflexivity. Qed.

(** C5, at the input where the code leaves it: a 500 whose body is not
    UTF-8, so does not parse as JSON, raises [UnicodeDecodeError] and no
    base error with the fallbacks. *)
Theorem C5_server_error_not_utf8_raises_UnicodeDecodeError `{Builtins} :
  (forall self,
     HttpClient._handle_error_response self server_error_not_utf8 = UnicodeDecodeError)
  /\ (forall self path params url,
        HttpClient._build_url self path params = Return url ->
        run (HttpClient.get self path params) (fun _ => HTTPError server_error_not_utf8) =
        ([HttpClient.request self url], (self, Raise UnicodeDecodeError))).
Proof.
  split; [reflexivity|].
  intros self path params url E. rewrite run_get, E. reflexivity.
Qed.

Lemma C5_server_error_not_utf8_raises_UnicodeDecodeError_witness :
  run (@HttpClient.get ascii_builtins scenario_http (lit "/account") None)
      (fun _ => HTTPError server_error_not_utf8) =
  ([HttpClient.request scenario_http (lit "https://api.usecart.com/v1/account")],
   (scenario_http, Raise UnicodeDecodeError)).
Proof.
  exact (proj2 (@C5_server_error_not_utf8_raises_UnicodeDecodeError ascii_builtins)
           scenario_http (lit "/account") None
           (lit "https://api.usecart.com/v1/account") eq_refl).
Defined.

(** A 429 whose body [json.loads] reads, or refuses as no JSON, and whose
    [Retry-After] is missing, empty or an integer is a rate-limit error:
    fixed status and code, message and request id of the body, the delay
    when there is one, and the limits of the cache when it holds some. *)
Lemma too_many_requests_is_rate_limit_error `{Builtins} (self : HttpClient.t)
  (exc : Response) (retry_after : option Z) :
  resp_code exc = 429%Z -> json_read (resp_body exc) = true ->
  match resp_headers exc (lit "Retry-After") with
  | Some (c :: h) => int (c :: h) = retry_after /\ retry_after <> None
  | _ => retry_after = None
  end ->
  HttpClient._handle_error_response self exc =
  CartError (Errors.RateLimit
    {| Errors.message := HttpClient.message (resolved 429 (resp_body exc));
       Errors.status := 429;
       Errors.code := JStr (lit "rate_limit_exceeded");
       Errors.request_id := HttpClient.request_id (resolved 429 (resp_body exc)) |}
    retry_after
    (option_map RateLimitInfo.limit (HttpClient.rate_limit self))
    (option_map RateLimitInfo.remaining (HttpClient.rate_limit self))).
Proof.
  intros Ec Hb Hr. rewrite (_handle_error_response_eq _ _ Hb), Ec. cbv zeta.
  change (429 =? 401)%Z with false. change (429 =? 429)%Z with true. cbv iota.
  destruct (resp_headers exc (lit "Retry-After")) as [[|c h]|]; try now subst.
  destruct Hr as [<- Hn]. destruct (int (c :: h)); [reflexivity | contradiction].
Qed.

Example too_many_requests_scenario :
  run (@HttpClient.get ascii_builtins scenario_http (lit "/stores") None)
      (fun _ => HTTPError too_many_requests) =
  ([HttpClient.request scenario_http (lit "https://api.usecart.com/v1/stores")],
   (HttpClient.Make (lit "cart_sk_test") (lit "https://api.usecart.com/v1")
      (Some (RateLimitInfo.Make 0 100)),
    Raise (CartError (Errors.RateLimit
      {| Errors.message := JStr (lit "slow down");
         Errors.status := 429;
         Errors.code := JStr (lit "rate_limit_exceeded");
         Errors.request_id := JStr (lit "req_2") |}
      (Some 30%Z) (Some 100%Z) (Some 0%Z))))).
Proof. vm_compute. reflexivity. Qed.

(** C3, at the input where the code leaves it: a 429 whose [Retry-After]
    is a date raises the [ValueError] of [int], and no rate-limit error
    with an absent delay. *)
Theorem C3_retry_after_date_raises_ValueError :
  (forall self,
     @HttpClient._handle_error_response ascii_builtins self too_many_requests_until_date =
     IntValueError retry_after_date)
  /\ run (@HttpClient.get ascii_builtins scenario_http (lit "/stores") None)
         (fun _ => HTTPError too_many_requests_until_date) =
     ([HttpClient.request scenario_http (lit "https://api.usecart.com/v1/stores")],
      (HttpClient.Make (lit "cart_sk_test") (lit "https://api.usecart.com/v1")
         (Some (RateLimitInfo.Make 0 100)),
       Raise (IntValueError retry_after_date))).
Proof.
  split; [intros self; reflexivity | vm_compute; reflexivity].
Qed.

(** ** Successful bodies *)

Lemma py_get_Raise (x : json) (key : pystr) (default : json) (e : exn) :
  py_get x key default = Raise e -> e = AttributeError.
Proof. destruct x; simpl; congruence. Qed.

Lemma _parse_response_object (fields : list (pystr * json)) :
  object_if_present (member fields (lit "meta")) = true ->
  object_if_present (member fields (lit "usage")) = true ->
  HttpClient._parse_response (JObject fields) =
  Return
    (ApiResponse.Make
       (match member fields (lit "data") with Some v => v | None => JNull end)
       (ApiResponseMeta.Make
          (field_of (member fields (lit "meta")) (lit "request_id") (JStr []))
          (field_of (member fields (lit "meta")) (lit "timestamp") (JStr []))
          (field_of (member fields (lit "meta")) (lit "page") (JInt 0))
          (field_of (member fields (lit "meta")) (lit "total_pages") (JInt 0))
          (field_of (member fields (lit "meta")) (lit "total_results") (JInt 0)))
       (ApiResponseUsage.Make
          (field_of (member fields (lit "usage")) (lit "requests_today") (JInt 0))
          (field_of (member fields (lit "usage")) (lit "limit") (JInt 0)))).
Proof.
  intros Hm Hu. unfold HttpClient._parse_response.
  cbn [py_get bind]. rewrite !dict_get_member.
  destruct (member fields (lit "meta")) as [[|b|n|r|s|l|m]|]; try discriminate Hm;
    destruct (member fields (lit "usage")) as [[|b'|n'|r'|s'|l'|u]|];
    try discriminate Hu;
    cbn [py_get bind field_of]; rewrite ?dict_get_member; reflexivity.
Qed.

(** A member [meta] or [usage] that is there and is not an object is not
    covered: the parse raises. *)
Lemma _parse_response_meta_not_object (fields : list (pystr * json)) (v : json) :
  member fields (lit "meta") = Some v ->
  (forall m, v <> JObject m) ->
  HttpClient._parse_response (JObject fields) = Raise AttributeError.
Proof.
  intros E Hv. unfold HttpClient._parse_response.
  cbn [py_get bind]. rewrite dict_get_member, E.
  destruct v as [| | | | | |m]; try reflexivity. now destruct (Hv m).
Qed.

Lemma _parse_response_envelope (r : ApiResponse.t) :
  HttpClient._parse_response (envelope r) = Return r.
Proof. destruct r as [d [a b c e f] [g h]]. reflexivity. Qed.

(** C8. A body that is an object, with [meta] and [usage] objects where
    they are there, always parses; the record holds, for every field of
    [meta] and [usage], the value of the body when the body has the field
    and the default when the object or the field is missing (the empty
    string for [request_id] and [timestamp], zero for the counters); and the
    parse gives back any response from its envelope. *)
Theorem C8_envelope_parse :
  (forall fields,
     object_if_present (member fields (lit "meta")) = true ->
     object_if_present (member fields (lit "usage")) = true ->
     HttpClient._parse_response (JObject fields) =
     Return
       (ApiResponse.Make
          (match member fields (lit "data") with Some v => v | None => JNull end)
          (ApiResponseMeta.Make
             (field_of (member fields (lit "meta")) (lit "request_id") (JStr []))
             (field_of (member fields (lit "meta")) (lit "timestamp") (JStr []))
             (field_of (member fields (lit "meta")) (lit "page") (JInt 0))
             (field_of (member fields (lit "meta")) (lit "total_pages") (JInt 0))
             (field_of (member fields (lit "meta")) (lit "total_results") (JInt 0)))
          (ApiResponseUsage.Make
             (field_of (member fields (lit "usage")) (lit "requests_today") (JInt 0))
             (field_of (member fields (lit "usage")) (lit "limit") (JInt 0)))))
  /\ (forall r, HttpClient._parse_response (envelope r) = Return r).
Proof.
  split; [exact _parse_response_object | exact _parse_response_envelope].
Qed.

(** The theorem at work: a body with no [usage], and a [meta] that has
    [page] and [request_id] only. *)
Lemma C8_envelope_parse_witness :
  HttpClient._parse_response
    (JObject [ (lit "data", JList [JStr (lit "a.com")]);
               (lit "meta", JObject [ (lit "page", JInt 2);
                                      (lit "request_id", JStr (lit "req_9")) ]) ]) =
  Return
    (ApiResponse.Make
       (JList [JStr (lit "a.com")])
       (ApiResponseMeta.Make (JStr (lit "req_9")) (JStr []) (JInt 2) (JInt 0) (JInt 0))
       (ApiResponseUsage.Make (JInt 0) (JInt 0))).
Proof.
  exact (proj1 C8_envelope_parse
           [ (lit "data", JList [JStr (lit "a.com")]);
             (lit "meta", JObject [ (lit "page", JInt 2);
                                    (lit "request_id", JStr (lit "req_9")) ]) ]
           eq_refl eq_refl).
Defined.

(** C8, as the claim words it, fails: a successful body whose [meta] is
    [null], as in [{"data": [], "meta": null}], does not parse to a
    response with the defaults; [None.get] raises [AttributeError], which
    leaves [get]. So does a body that is no object, as [[]]. *)
Lemma C8_counterexample_meta_null :
  HttpClient._parse_response
    (JObject [ (lit "data", JList []); (lit "meta", JNull) ]) = Raise AttributeError
  /\ HttpClient._parse_response (JList []) = Raise AttributeError
  /\ run (@HttpClient.get ascii_builtins scenario_http (lit "/account") None)
         (fun _ => Success
            {| resp_code := 200;
               resp_headers := headers_of [];
               resp_body :=
                 Parsed (JObject [ (lit "data", JList []); (lit "meta", JNull) ]) |}) =
     ([HttpClient.request scenario_http (lit "https://api.usecart.com/v1/account")],
      (scenario_http, Raise AttributeError)).
Proof.
  split; [reflexivity|]. split; [reflexivity|]. vm_compute. reflexivity.
Qed.

(** ** What a call can raise *)

Lemma traverse_Raise (A B : Type) (f : A -> result B) (xs : list A) (e : exn) :
  traverse f xs = Raise e -> exists x, In x xs /\ f x = Raise e.
Proof.
  induction xs as [|x xs IH]; simpl; [discriminate|].
  destruct (f x) as [y|e'] eqn:E; simpl.
  - destruct (traverse f xs); simpl; [discriminate|].
    intros [= <-]. destruct (IH eq_refl) as (x' & Hin & Hx). eauto.
  - intros [= <-]. eauto.
Qed.

Lemma described_entry_Raise (kv : pystr * value) (e : exn) :
  described_entry kv = Raise e -> e = UnicodeEncodeError.
Proof.
  unfold described_entry.
  destruct (quote (fst kv) safe_default) as [k|e1] eqn:E1; cbn [bind].
  - destruct (described_value (snd kv)) as [t|e2] eqn:E2; cbn [bind]; [discriminate|].
    intros [= <-]. destruct (snd kv) as [[|[]|n|r|s]|vs]; cbn [described_value] in E2;
      try discriminate E2; try (now apply quote_Raise in E2).
    destruct (traverse (fun a => quote (str a) []) vs) eqn:E3; [discriminate|].
    injection E2 as <-. now apply traverse_quote_Raise in E3.
  - intros [= <-]. now apply quote_Raise in E1.
Qed.

Lemma _build_url_Raise (self : HttpClient.t) (path : pystr)
  (params : option params_t) (e : exn) :
  HttpClient._build_url self path params = Raise e -> e = UnicodeEncodeError.
Proof.
  destruct params as [params|]; [|discriminate].
  rewrite _build_url_described. unfold described_url.
  destruct (traverse described_entry (filter is_present params)) as [[|p ps]|e'] eqn:E;
    cbn [bind]; try discriminate.
  intros [= <-]. apply traverse_Raise in E. destruct E as (kv & _ & E).
  now apply described_entry_Raise in E.
Qed.

Lemma _parse_response_Raise (body : json) (e : exn) :
  HttpClient._parse_response body = Raise e -> e = AttributeError.
Proof.
  unfold HttpClient._parse_response.
  repeat
    match goal with
    | |- bind ?c _ = Raise _ -> _ =>
        let E := fresh "E" in
        destruct c eqn:E; cbn [bind];
        [ | intros [= <-]; now apply py_get_Raise in E ]
    end.
  discriminate.
Qed.

(** ** The state a call leaves *)

Lemma run_get_base `{Builtins} (self : HttpClient.t) (path : pystr)
  (params : option params_t) (server : Request -> reply) :
  HttpClient._base_url (fst (snd (run (HttpClient.get self path params) server))) =
  HttpClient._base_url self.
Proof.
  rewrite run_get.
  destruct (HttpClient._build_url self path params) as [url|e]; [|reflexivity].
  cbn [snd].
  destruct (server (HttpClient.request self url)) as [resp|exc| |];
    [| |reflexivity|reflexivity].
  - pose proof (_parse_rate_limit_headers_state resp self) as (_ & Hb & _).
    now destruct (HttpClient._parse_rate_limit_headers resp self) as [self' [[]|e]].
  - pose proof (_parse_rate_limit_headers_state exc self) as (_ & Hb & _).
    now destruct (HttpClient._parse_rate_limit_headers exc self) as [self' [[]|e]].
Qed.

Lemma run_invoke_base `{Builtins} (http : HttpClient.t) (c : api_call)
  (server : Request -> reply) :
  HttpClient._base_url (fst (snd (run (invoke http c) server))) =
  HttpClient._base_url http.
Proof.
  assert (G : forall before segment after params,
             HttpClient._base_url
               (fst (snd (run (get_at http before segment after params) server))) =
             HttpClient._base_url http).
  { intros. unfold get_at.
    destruct (_encode segment); [apply run_get_base | reflexivity]. }
  destruct c; cbn [invoke]; first [ apply G | apply run_get_base ].
Qed.

Lemma run_get_key `{Builtins} (self : HttpClient.t) (path : pystr)
  (params : option params_t) (server : Request -> reply) :
  HttpClient._api_key (fst (snd (run (HttpClient.get self path params) server))) =
  HttpClient._api_key self.
Proof.
  rewrite run_get.
  destruct (HttpClient._build_url self path params) as [url|e]; [|reflexivity].
  cbn [snd].
  destruct (server (HttpClient.request self url)) as [resp|exc| |];
    [| |reflexivity|reflexivity].
  - pose proof (_parse_rate_limit_headers_state resp self) as (Hk & _ & _).
    now destruct (HttpClient._parse_rate_limit_headers resp self) as [self' [[]|e]].
  - pose proof (_parse_rate_limit_headers_state exc self) as (Hk & _ & _).
    now destruct (HttpClient._parse_rate_limit_headers exc self) as [self' [[]|e]].
Qed.

Lemma run_invoke_key `{Builtins} (http : HttpClient.t) (c : api_call)
  (server : Request -> reply) :
  HttpClient._api_key (fst (snd (run (invoke http c) server))) =
  HttpClient._api_key http.
Proof.
  assert (G : forall before segment after params,
             HttpClient._api_key
               (fst (snd (run (get_at http before segment after params) server))) =
             HttpClient._api_key http).
  { intros. unfold get_at.
    destruct (_encode segment); [apply run_get_key | reflexivity]. }
  destruct c; cbn [invoke]; first [ apply G | apply run_get_key ].
Qed.

(** ** The configuration error *)

(** C7, as the claim words it, fails: the configuration error is a plain
    [ValueError], and a network call raises [ValueError] too. [int] raises
    it on a rate-limit header that is no integer, here on a successful
    response; and [Request] raises it on a base URL with no scheme, which
    the constructor accepts. *)
Lemma C7_counterexample_ValueError_from_a_call :
  snd (snd (run (@invoke ascii_builtins scenario_http client_account)
                (fun _ => Success
                   {| resp_code := 200;
                      resp_headers :=
                        headers_of [ (lit "X-RateLimit-Limit", lit "50");
                                     (lit "X-RateLimit-Remaining", lit "many") ];
                      resp_body := Parsed (JObject []) |}))) =
    Raise (ValueError (InvalidLiteral (lit "many")))
  /\ Cart.__init__ (Some (lit "cart_sk_test")) (Some (lit "api.usecart.com/v1")) =
     Done (Return (Cart.Make
       (HttpClient.__init__ (lit "cart_sk_test") (lit "api.usecart.com/v1"))))
  /\ run (@invoke ascii_builtins
            (HttpClient.__init__ (lit "cart_sk_test") (lit "api.usecart.com/v1"))
            client_account)
         (fun _ => Rejected) =
     ([], (HttpClient.__init__ (lit "cart_sk_test") (lit "api.usecart.com/v1"),
           Raise (ValueError (UnknownUrlType (lit "api.usecart.com/v1/account"))))).
Proof.
  split; [vm_compute; reflexivity|]. split; [reflexivity|]. vm_compute. reflexivity.
Qed.

(** C7. The constructor given no key, or an empty one, raises its
    [ValueError] without a request being sent. Given any other key it
    returns a client that holds this key, again without a request. So a
    client that exists holds a key that is not empty, and every call of the
    public surface, whatever the server answers, leaves the key as it is:
    no call meets a missing key. *)
Theorem C7_configuration_error_at_construction `{Builtins} :
  (forall base_url server,
     run (Cart.__init__ None base_url) server =
       ([], Raise (ValueError (Message Cart.api_key_required)))
     /\ run (Cart.__init__ (Some []) base_url) server =
       ([], Raise (ValueError (Message Cart.api_key_required))))
  /\ (forall c key base_url server,
        exists cart,
          run (Cart.__init__ (Some (c :: key)) base_url) server = ([], Return cart)
          /\ HttpClient._api_key (Cart._http cart) = c :: key)
  /\ (forall api_key base_url cart call server,
        Cart.__init__ api_key base_url = Done (Return cart) ->
        HttpClient._api_key (Cart._http cart) <> []
        /\ HttpClient._api_key
             (fst (snd (run (invoke (Cart._http cart) call) server))) =
           HttpClient._api_key (Cart._http cart)).
Proof.
  split; [|split].
  - intros; split; reflexivity.
  - intros. eexists. split; reflexivity.
  - intros api_key base_url cart call server E. split; [|apply run_invoke_key].
    destruct api_key as [[|c key]|]; try discriminate E.
    injection E as <-. discriminate.
Qed.

Lemma C7_configuration_error_at_construction_witness :
  HttpClient._api_key scenario_http <> []
  /\ HttpClient._api_key
       (fst (snd (run (@invoke ascii_builtins scenario_http (stores_get (lit "a.com")))
                      (fun _ => HTTPError unauthorized)))) =
     HttpClient._api_key scenario_http.
Proof.
  apply (proj2 (proj2 (@C7_configuration_error_at_construction ascii_builtins))
           (Some (lit "cart_sk_test")) None (Cart.Make scenario_http)
           (stores_get (lit "a.com")) (fun _ => HTTPError unauthorized)).
  reflexivity.
Defined.

(** C9. The URL a call asks for is a function of the arguments of the call
    and of the base URL of the client: two clients with the same base URL
    build the same one, whatever their key, their cache and the
    interpreter; and so does one client before and after any other call,
    whatever the server answered to it. *)
Theorem C9_request_depends_on_inputs_and_base_url_only :
  (forall (B1 B2 : Builtins) http1 http2 c,
     HttpClient._base_url http1 = HttpClient._base_url http2 ->
     sent_url (@invoke B1 http1 c) = sent_url (@invoke B2 http2 c))
  /\ (forall (B : Builtins) http earlier server c,
        sent_url (invoke (fst (snd (run (invoke http earlier) server))) c) =
        sent_url (invoke http c)).
Proof.
  split.
  - apply sent_url_invoke_base.
  - intros. apply sent_url_invoke_base, run_invoke_base.
Qed.

(** The theorem at work: a client with another key and a cache that is
    set asks for the same URL. *)
Lemma C9_request_depends_on_inputs_and_base_url_only_witness :
  sent_url (@invoke ascii_builtins scenario_http
              (stores_compare [lit "a.com"; lit "b.com"])) =
  sent_url (@invoke ascii_builtins
              (HttpClient.Make (lit "cart_sk_other") (lit "https://api.usecart.com/v1")
                 (Some (RateLimitInfo.Make 0 100)))
              (stores_compare [lit "a.com"; lit "b.com"])).
Proof.
  exact (proj1 C9_request_depends_on_inputs_and_base_url_only
           ascii_builtins ascii_builtins scenario_http
           (HttpClient.Make (lit "cart_sk_other") (lit "https://api.usecart.com/v1")
              (Some (RateLimitInfo.Make 0 100)))
           (stores_compare [lit "a.com"; lit "b.com"]) eq_refl).
Defined.

(** * Further properties of the code *)

(** ** The base URL *)

Lemma rstrip_slash_decompose (s : pystr) :
  exists n, s = rstrip_slash s ++ repeat 47 n.
Proof.
  induction s as [|c rest [n IH]].
  - now exists 0%nat.
  - cbn [rstrip_slash]. destruct (rstrip_slash rest) as [|c' r'] eqn:E.
    + cbn [app] in IH. subst rest.
      destruct (N.eqb_spec c 47) as [->|].
      * now exists (S n).
      * now exists n.
    + exists n. cbn [app]. f_equal. exact IH.
Qed.

Lemma rstrip_slash_last (s : pystr) : last (rstrip_slash s) 0 <> 47.
Proof.
  induction s as [|c rest IH].
  - discriminate.
  - cbn [rstrip_slash]. destruct (rstrip_slash rest) as [|c' r'] eqn:E.
    + destruct (N.eqb_spec c 47) as [->|]; [discriminate | assumption].
    + exact IH.
Qed.

Lemma rstrip_slash_app_slash (s : pystr) :
  rstrip_slash (s ++ [47]) = rstrip_slash s.
Proof.
  induction s as [|c rest IH]; [reflexivity|].
  cbn [app rstrip_slash]. now rewrite IH.
Qed.

(** X1. The transport keeps the base URL without its trailing slashes:
    what it keeps does not end in a slash, the base URL given is what it
    keeps followed by slashes only, and a base URL given with one more
    slash at its end builds the same URLs. *)
Theorem X1_base_url_trailing_slashes :
  forall api_key base_url,
    last (HttpClient._base_url (HttpClient.__init__ api_key base_url)) 0 <> 47
    /\ (exists n,
          base_url =
          HttpClient._base_url (HttpClient.__init__ api_key base_url) ++ repeat 47 n)
    /\ (forall path params,
          HttpClient._build_url (HttpClient.__init__ api_key (base_url ++ lit "/"))
            path params =
          HttpClient._build_url (HttpClient.__init__ api_key base_url) path params).
Proof.
  intros api_key base_url. split; [|split].
  - apply rstrip_slash_last.
  - apply rstrip_slash_decompose.
  - intros path params. apply _build_url_base.
    cbn [HttpClient.__init__ HttpClient._base_url]. apply rstrip_slash_app_slash.
Qed.

(** ** Mappings with nothing to send *)

(** X10. The URL has a query string exactly when some entry of the mapping
    is not None: with no mapping, an empty one or one whose values are all
    None the URL is the base URL and the path, and otherwise it goes on
    with a question mark and a query that is not empty. *)
Theorem X10_query_only_when_an_entry_is_present :
  (forall self path,
     HttpClient._build_url self path None = Return (HttpClient._base_url self ++ path))
  /\ (forall self path params,
        filter is_present params = [] ->
        HttpClient._build_url self path (Some params) =
        Return (HttpClient._base_url self ++ path))
  /\ (forall self path params url,
        filter is_present params <> [] ->
        HttpClient._build_url self path (Some params) = Return url ->
        exists c q, url = (HttpClient._base_url self ++ path) ++ lit "?" ++ c :: q).
Proof.
  split; [|split].
  - reflexivity.
  - intros self path params E. rewrite _build_url_described.
    unfold described_url. now rewrite E.
  - intros self path params url Hne E. rewrite _build_url_described in E.
    unfold described_url in E.
    apply bind_Return_inv in E. destruct E as (parts & Ep & E).
    destruct parts as [|p ps].
    + apply traverse_Forall2 in Ep. inversion Ep as [E0|]. now symmetry in E0.
    + injection E as <-.
      apply traverse_Forall2 in Ep. inversion Ep as [|kv p' kvs ps' Hp _]; subst.
      apply described_entry_encoded in Hp. destruct Hp as (k & t & -> & _).
      destruct ps as [|p2 ps].
      * destruct k as [|c k]; eexists; eexists; reflexivity.
      * change (join (lit "&") ((k ++ lit "=" ++ t) :: p2 :: ps))
          with ((k ++ lit "=" ++ t) ++ lit "&" ++ join (lit "&") (p2 :: ps)).
        destruct k as [|c k]; eexists; eexists; reflexivity.
Qed.

Lemma X10_query_only_when_an_entry_is_present_witness :
  HttpClient._build_url scenario_http (lit "/stores")
    (Some [ (lit "keyword", Atom ANone); (lit "page", Atom ANone) ]) =
  Return (HttpClient._base_url scenario_http ++ lit "/stores").
Proof.
  exact (proj1 (proj2 X10_query_only_when_an_entry_is_present)
           scenario_http (lit "/stores")
           [ (lit "keyword", Atom ANone); (lit "page", Atom ANone) ] eq_refl).
Defined.

(** ** Percent-encoding, one character after the other *)

Lemma utf8_encode_app (a b : pystr) :
  utf8_encode (a ++ b) =
  match utf8_encode a, utf8_encode b with
  | Some x, Some y => Some (x ++ y)
  | _, _ => None
  end.
Proof.
  induction a as [|c a IH]; cbn [app utf8_encode].
  - now destruct (utf8_encode b).
  - rewrite IH. destruct (utf8_encode_cp c) as [bs|]; [|reflexivity].
    destruct (utf8_encode a) as [x|]; [|reflexivity].
    destruct (utf8_encode b) as [y|]; [|reflexivity].
    now rewrite app_assoc.
Qed.

Lemma quote_from_bytes_app (x y : list N) (safe : pystr) :
  quote_from_bytes (x ++ y) safe = quote_from_bytes x safe ++ quote_from_bytes y safe.
Proof. unfold quote_from_bytes. now rewrite map_app, concat_app. Qed.

Lemma quote_app (a b safe : pystr) :
  quote (a ++ b) safe =
  (x <- quote a safe ;; y <- quote b safe ;; Return (x ++ y)).
Proof.
  unfold quote. rewrite utf8_encode_app.
  destruct (utf8_encode a) as [x|]; [|reflexivity].
  destruct (utf8_encode b) as [y|]; [|reflexivity].
  cbn [bind]. now rewrite quote_from_bytes_app.
Qed.

(** X12. Quoting goes character by character: what is written for two
    texts put end to end is what is written for each, put end to end, and
    it raises when either does; so it is for the segments of a path. *)
Theorem X12_quote_of_concatenation :
  (forall a b safe,
     quote (a ++ b) safe =
     (x <- quote a safe ;; y <- quote b safe ;; Return (x ++ y)))
  /\ (forall a b,
        _encode (a ++ b) = (x <- _encode a ;; y <- _encode b ;; Return (x ++ y))).
Proof.
  split; [exact quote_app | intros a b; apply quote_app].
Qed.

(** ** Texts that need no escape *)

Lemma always_safe_ascii (c : codepoint) : mem c always_safe = true -> c < 0x80.
Proof.
  intros H. apply mem_In in H.
  assert (G : forallb (fun x => x <? 0x80) always_safe = true)
    by (vm_compute; reflexivity).
  rewrite forallb_forall in G. now apply N.ltb_lt, G.
Qed.

Lemma quote_unreserved (s safe : pystr) :
  forallb (fun c => mem c always_safe) s = true -> quote s safe = Return s.
Proof.
  induction s as [|c s IH]; [reflexivity|].
  cbn [forallb]. intros H. apply andb_true_iff in H. destruct H as [Hc Hs].
  change (c :: s) with ([c] ++ s) at 1. rewrite quote_app, (IH Hs).
  assert (E : quote [c] safe = Return [c]).
  { unfold quote. cbn [utf8_encode]. unfold utf8_encode_cp.
    pose proof (always_safe_ascii _ Hc) as Hlt. apply N.ltb_lt in Hlt. rewrite Hlt.
    cbn [app]. unfold quote_from_bytes. cbn [map List.concat]. unfold quoter.
    now rewrite mem_app, Hc. }
  now rewrite E.
Qed.

Lemma string_of_uint_unreserved (d : Decimal.uint) :
  forallb (fun c => mem c always_safe) (lit (NilEmpty.string_of_uint d)) = true.
Proof.
  induction d as [|d IH|d IH|d IH|d IH|d IH|d IH|d IH|d IH|d IH|d IH];
    [reflexivity | ..];
    cbn [NilEmpty.string_of_uint]; unfold lit in *;
    cbn [list_ascii_of_string map forallb]; rewrite IH; reflexivity.
Qed.

Lemma str_int_unreserved (n : Z) :
  forallb (fun c => mem c always_safe) (str_int n) = true.
Proof.
  unfold str_int, NilZero.string_of_int, NilZero.string_of_uint.
  destruct (Z.to_int n) as [d|d]; destruct d;
    try reflexivity;
    try apply string_of_uint_unreserved;
    (unfold lit; cbn [list_ascii_of_string map forallb];
     apply andb_true_iff; split; [reflexivity | apply string_of_uint_unreserved]).
Qed.

(** X15. What needs no escape is written as it is: a text of unreserved
    characters (letters, digits, [_], [.], [-], [~]), such as a domain
    name, comes out of [quote] unchanged, and so does the decimal numeral
    of an integer, negative ones included; an integer parameter is written
    [key=numeral]. The integers are those of at most 640 digits, which
    [str] converts under every digit limit an interpreter can be given. *)
Theorem X15_unreserved_text_is_unchanged :
  (forall s safe,
     forallb (fun c => mem c always_safe) s = true -> quote s safe = Return s)
  /\ (forall n,
        (Z.abs n < 10 ^ 640)%Z ->
        quote (str_int n) [] = Return (str_int n))
  /\ (forall self path key k n,
        (Z.abs n < 10 ^ 640)%Z ->
        quote key safe_default = Return k ->
        HttpClient._build_url self path (Some [ (key, Atom (AInt n)) ]) =
        Return ((HttpClient._base_url self ++ path) ++ lit "?" ++ k ++ lit "=" ++ str_int n)).
Proof.
  split; [exact quote_unreserved|]. split.
  - intros n _. apply quote_unreserved, str_int_unreserved.
  - intros self path key k n _ Ek.
    cbn [HttpClient._build_url HttpClient._build_url_loop str].
    rewrite Ek. cbn [bind].
    rewrite (quote_unreserved _ _ (str_int_unreserved n)). reflexivity.
Qed.

Lemma X15_unreserved_text_is_unchanged_witness :
  quote (lit "my-shop.example.com") [] = Return (lit "my-shop.example.com")
  /\ HttpClient._build_url scenario_http (lit "/stores")
       (Some [ (lit "min_traffic", Atom (AInt (-250)%Z)) ]) =
     Return (lit "https://api.usecart.com/v1/stores?min_traffic=-250").
Proof.
  split.
  - apply (proj1 X15_unreserved_text_is_unchanged (lit "my-shop.example.com") []).
    reflexivity.
  - apply (proj2 (proj2 X15_unreserved_text_is_unchanged) scenario_http (lit "/stores")
             (lit "min_traffic") (lit "min_traffic") (-250)%Z).
    + vm_compute. reflexivity.
    + reflexivity.
Defined.

(** ** Two segments, two paths *)

Ltac div_mod_lia := zify; Z.to_euclidean_division_equations; lia.

Lemma utf8_encode_cp_inj (c1 c2 : codepoint) (b1 b2 r1 r2 : list N) :
  utf8_encode_cp c1 = Some b1 -> utf8_encode_cp c2 = Some b2 ->
  b1 ++ r1 = b2 ++ r2 -> c1 = c2 /\ r1 = r2.
Proof.
  unfold utf8_encode_cp.
  destruct (N.ltb_spec c1 0x80);
    [|destruct (N.ltb_spec c1 0x800);
      [|destruct (N.ltb_spec c1 0x10000);
        [destruct ((0xD800 <=? c1) && (c1 <=? 0xDFFF)); [discriminate|]
        |destruct (N.ltb_spec c1 0x110000); [|discriminate]]]];
    (destruct (N.ltb_spec c2 0x80);
     [|destruct (N.ltb_spec c2 0x800);
       [|destruct (N.ltb_spec c2 0x10000);
         [destruct ((0xD800 <=? c2) && (c2 <=? 0xDFFF)); [discriminate|]
         |destruct (N.ltb_spec c2 0x110000); [|discriminate]]]]);
    intros E1 E2;
    apply (f_equal (fun o => match o with Some l => l | None => [] end)) in E1;
    apply (f_equal (fun o => match o with Some l => l | None => [] end)) in E2;
    cbv beta iota in E1, E2; subst b1 b2; cbn [app]; intros E;
    repeat match type of E with
           | _ :: _ = _ :: _ =>
               let H := fresh "H" in
               apply (f_equal (fun l => (hd 0 l, tl l))) in E;
               cbn [hd tl] in E;
               assert (H := f_equal fst E); cbn [fst] in H;
               apply (f_equal snd) in E; cbn [snd] in E
           end;
    first [ split; [div_mod_lia | exact E] | exfalso; div_mod_lia ].
Qed.

Lemma utf8_encode_cp_nonempty (c : codepoint) : utf8_encode_cp c <> Some [].
Proof.
  unfold utf8_encode_cp.
  repeat match goal with |- context [if ?b then _ else _] => destruct b end;
    discriminate.
Qed.

Lemma utf8_encode_inj (s1 : pystr) :
  forall s2 bs, utf8_encode s1 = Some bs -> utf8_encode s2 = Some bs -> s1 = s2.
Proof.
  induction s1 as [|c1 s1 IH]; intros [|c2 s2] bs; cbn [utf8_encode].
  - reflexivity.
  - intros [= <-]. destruct (utf8_encode_cp c2) as [[|b b2]|] eqn:E2; try discriminate.
    + now apply utf8_encode_cp_nonempty in E2.
    + destruct (utf8_encode s2); discriminate.
  - destruct (utf8_encode_cp c1) as [[|b b1]|] eqn:E1; try discriminate.
    + now apply utf8_encode_cp_nonempty in E1.
    + destruct (utf8_encode s1); [|discriminate]. intros [= <-]. discriminate.
  - destruct (utf8_encode_cp c1) as [b1|] eqn:E1; [|discriminate].
    destruct (utf8_encode s1) as [r1|] eqn:F1; [|discriminate].
    destruct (utf8_encode_cp c2) as [b2|] eqn:E2; [|discriminate].
    destruct (utf8_encode s2) as [r2|] eqn:F2; [|discriminate].
    intros [= <-] [= E].
    destruct (utf8_encode_cp_inj _ _ r1 r2 E1 E2 (eq_sym E)) as [-> <-].
    f_equal. eapply IH; [reflexivity | exact F2].
Qed.

(** X11. No two segments are written the same: two different segments
    that [_encode] accepts never give the same text, so two domains,
    product ids, ad ids or keywords never ask for the same path; a segment
    that already holds an escape is not taken for the character escaped. *)
Theorem X11_encode_is_injective :
  forall a b s, a <> b -> _encode a = Return s -> _encode b <> Return s.
Proof.
  intros a b s Hab Ea Eb. apply Hab.
  apply unquote_quote in Ea; [|reflexivity].
  apply unquote_quote in Eb; [|reflexivity].
  eapply utf8_encode_inj; eassumption.
Qed.

Lemma X11_encode_is_injective_witness :
  _encode (lit "a%2Fb") <> Return (lit "a%2Fb").
Proof.
  exact (@X11_encode_is_injective (lit "a/b") (lit "a%2Fb") (lit "a%2Fb")
           ltac:(intros H; vm_compute in H; discriminate H) eq_refl).
Defined.

(** ** The separators of a query string *)

Lemma occurrences_app (c : codepoint) (s t : pystr) :
  occurrences c (s ++ t) = (occurrences c s + occurrences c t)%nat.
Proof. unfold occurrences. now rewrite filter_app, length_app. Qed.

Lemma occurrences_quiet (c : codepoint) (s : pystr) :
  quiet_char c = false -> quiet s = true -> occurrences c s = 0%nat.
Proof.
  intros Hc. unfold occurrences, quiet.
  induction s as [|x s IH]; [reflexivity|].
  cbn [forallb filter]. intros H. apply andb_true_iff in H. destruct H as [Hx Hs].
  destruct (N.eqb_spec c x) as [->|]; [congruence | now apply IH].
Qed.

Lemma quiet_app (s t : pystr) : quiet (s ++ t) = quiet s && quiet t.
Proof. apply forallb_app. Qed.

Lemma quiet_plain (s : pystr) : forallb plain s = true -> quiet s = true.
Proof.
  unfold quiet, quiet_char. rewrite !forallb_forall. intros H x Hx.
  now rewrite (H x Hx).
Qed.

Lemma quiet_plain_or_slash (s : pystr) :
  forallb (fun c => plain c || (c =? 47)) s = true -> quiet s = true.
Proof.
  unfold quiet, quiet_char. rewrite !forallb_forall. intros H x Hx.
  now rewrite (H x Hx).
Qed.

Lemma quiet_join_comma (elems : list pystr) :
  Forall (fun e => quiet e = true) elems -> quiet (join (lit ",") elems) = true.
Proof.
  induction 1 as [|e elems He _ IH]; [reflexivity|].
  destruct elems as [|e' elems']; [exact He|].
  change (join (lit ",") (e :: e' :: elems'))
    with (e ++ lit "," ++ join (lit ",") (e' :: elems')).
  now rewrite !quiet_app, He, IH.
Qed.

Lemma encoded_value_quiet (v : value) (t : pystr) :
  encoded_value v t -> quiet t = true.
Proof.
  destruct v as [[|b|n|r|s]|vs]; cbn [encoded_value].
  - intros [_ H]. now apply quiet_plain.
  - intros ->. now destruct b.
  - intros [_ H]. now apply quiet_plain.
  - intros [_ H]. now apply quiet_plain.
  - intros [_ H]. now apply quiet_plain.
  - intros (elems & -> & Hall). apply quiet_join_comma.
    clear -Hall. induction Hall as [|a e vs elems [_ He] _ IH]; constructor;
      [now apply quiet_plain | exact IH].
Qed.

Lemma occurrences_single (c x : codepoint) :
  occurrences c [x] = if c =? x then 1%nat else 0%nat.
Proof. unfold occurrences. cbn [filter]. now destruct (c =? x). Qed.

Lemma occurrences_encoded_entry (c : codepoint) (kv : pystr * value) (part : pystr) :
  quiet_char c = false -> encoded_entry kv part ->
  occurrences c part = if c =? 61 then 1%nat else 0%nat.
Proof.
  intros Hc (k & t & -> & _ & Hk & Hv).
  rewrite !occurrences_app.
  rewrite (@occurrences_quiet c _ Hc (@quiet_plain_or_slash _ Hk)).
  rewrite (@occurrences_quiet c _ Hc (@encoded_value_quiet _ _ Hv)).
  change (lit "=") with [61]. rewrite occurrences_single. lia.
Qed.

Lemma occurrences_entries (c : codepoint) (entries : params_t) (parts : list pystr) :
  quiet_char c = false -> Forall2 encoded_entry entries parts ->
  list_sum (map (occurrences c) parts) =
  if c =? 61 then List.length parts else 0%nat.
Proof.
  intros Hc. induction 1 as [|kv part entries parts He _ IH]; [now destruct (c =? 61)|].
  rewrite map_cons.
  change (list_sum (occurrences c part :: map (occurrences c) parts))
    with (occurrences c part + list_sum (map (occurrences c) parts))%nat.
  rewrite (@occurrences_encoded_entry c _ _ Hc He), IH. cbn [List.length].
  destruct (c =? 61); reflexivity.
Qed.

Lemma occurrences_join_amp (c : codepoint) (parts : list pystr) :
  occurrences c (join (lit "&") parts) =
  ((if (c =? 38)%N then pred (List.length parts) else 0)
   + list_sum (map (occurrences c) parts))%nat.
Proof.
  induction parts as [|p parts IH]; [now destruct (c =? 38)|].
  destruct parts as [|p' parts'].
  - cbn [join map list_sum List.length pred fold_right]. destruct (c =? 38); lia.
  - change (join (lit "&") (p :: p' :: parts'))
      with (p ++ lit "&" ++ join (lit "&") (p' :: parts')).
    rewrite !occurrences_app, IH. change (lit "&") with [38].
    rewrite occurrences_single. unfold list_sum.
    cbn [List.length pred map fold_right]. destruct (c =? 38); lia.
Qed.

(** X18. No key and no value adds a separator to the query string: when
    [n] entries are present the query holds [n] equals signs, [n - 1]
    ampersands, one question mark (none when [n] is zero) and no hash, so
    it splits back into [n] pairs and nothing an argument holds adds a
    parameter or starts a fragment. *)
Theorem X18_query_separators :
  forall self path params url,
    HttpClient._build_url self path (Some params) = Return url ->
    exists query,
      url = (HttpClient._base_url self ++ path) ++ query
      /\ occurrences 61 query = List.length (filter is_present params)
      /\ occurrences 38 query = pred (List.length (filter is_present params))
      /\ occurrences 63 query = Nat.min 1 (List.length (filter is_present params))
      /\ occurrences 35 query = 0%nat.
Proof.
  intros self path params url E.
  rewrite _build_url_described in E. unfold described_url in E.
  apply bind_Return_inv in E. destruct E as (parts & Ep & E).
  assert (Hall : Forall2 encoded_entry (filter is_present params) parts).
  { apply traverse_Forall2 in Ep. revert Ep.
    apply Forall2_impl. exact described_entry_encoded. }
  rewrite (Forall2_length Hall).
  destruct parts as [|p ps].
  - injection E as <-. exists []. rewrite app_nil_r. now repeat split.
  - injection E as <-. exists (lit "?" ++ join (lit "&") (p :: ps)).
    split; [reflexivity|].
    change (lit "?") with [63]. rewrite !occurrences_app, !occurrences_single.
    rewrite !occurrences_join_amp.
    rewrite !(fun c H => @occurrences_entries c _ _ H Hall) by reflexivity.
    cbn [List.length pred N.eqb Pos.eqb Nat.min]. repeat split; lia.
Qed.

Lemma X18_query_separators_witness :
  exists query,
    lit "https://api.usecart.com/v1/stores?k%26x%3D1=a%3Fb%23c&domains=p.com,q.com" =
      (HttpClient._base_url scenario_http ++ lit "/stores") ++ query
    /\ occurrences 61 query = 2%nat
    /\ occurrences 38 query = 1%nat
    /\ occurrences 63 query = 1%nat
    /\ occurrences 35 query = 0%nat.
Proof.
  exact (X18_query_separators scenario_http (lit "/stores")
           [ (lit "k&x=1", Atom (AStr (lit "a?b#c")));
             (lit "skip", Atom ANone);
             (lit "domains", VList [AStr (lit "p.com"); AStr (lit "q.com")]) ]
           eq_refl).
Defined.

(** ** Comparing stores *)

Lemma traverse_map (A B C : Type) (g : A -> B) (f : B -> result C) (xs : list A) :
  traverse f (map g xs) = traverse (fun x => f (g x)) xs.
Proof.
  induction xs as [|x xs IH]; [reflexivity|].
  cbn [map traverse]. now rewrite IH.
Qed.

(** X13. [stores.compare] asks for [/stores/compare?domains=] followed by
    the domains, each percent-encoded, with commas between them, for a list
    of any length: an empty list leaves the value empty, one domain has no
    comma; a domain with a surrogate raises before anything is sent. *)
Theorem X13_compare_request `{Builtins} :
  forall http domains,
    sent_url (StoresResource.compare http domains) =
    match traverse _encode domains with
    | Return elems =>
        Some ((HttpClient._base_url http ++ lit "/stores/compare")
                ++ lit "?domains=" ++ join (lit ",") elems)
    | Raise _ => None
    end.
Proof.
  intros http domains. unfold StoresResource.compare.
  rewrite sent_url_get.
  cbn [HttpClient._build_url HttpClient._build_url_loop].
  rewrite traverse_map. cbn [str]. unfold _encode.
  destruct (traverse (fun x => quote x []) domains) as [elems|e]; reflexivity.
Qed.

(** ** Which bodies parse *)

(** X14. [_parse_response] returns exactly for the bodies that are a JSON
    object whose [meta] and [usage], where it has them, are objects; for
    every other body (a list, a string, a number, null, or an object with
    [meta] or [usage] set to something else, null included) it raises
    [AttributeError], and it raises nothing else. *)
Theorem X14_parse_response_domain :
  forall body,
    match body with
    | JObject fields =>
        if object_if_present (member fields (lit "meta"))
           && object_if_present (member fields (lit "usage"))
        then exists r, HttpClient._parse_response body = Return r
        else HttpClient._parse_response body = Raise AttributeError
    | _ => HttpClient._parse_response body = Raise AttributeError
    end.
Proof.
  intros [| | | | | |fields]; try reflexivity.
  destruct (object_if_present (member fields (lit "meta"))) eqn:Em.
  - destruct (object_if_present (member fields (lit "usage"))) eqn:Eu; cbn [andb].
    + eexists. now apply _parse_response_object.
    + unfold HttpClient._parse_response. cbn [py_get bind].
      rewrite !dict_get_member.
      destruct (member fields (lit "meta")) as [[| | | | | |m]|]; try discriminate Em;
        destruct (member fields (lit "usage")) as [[| | | | | |u]|];
        try discriminate Eu; reflexivity.
  - cbn [andb]. unfold HttpClient._parse_response. cbn [py_get bind].
    rewrite dict_get_member.
    destruct (member fields (lit "meta")) as [[| | | | | |m]|]; try discriminate Em;
      reflexivity.
Qed.

(** ** One call, one request *)

Lemma run_get_sent `{Builtins} (self : HttpClient.t) (path : pystr)
  (params : option params_t) (server : Request -> reply) :
  (exists url,
     fst (run (HttpClient.get self path params) server) = [HttpClient.request self url])
  \/ (fst (run (HttpClient.get self path params) server) = []
      /\ fst (snd (run (HttpClient.get self path params) server)) = self
      /\ exists e, snd (snd (run (HttpClient.get self path params) server)) = Raise e).
Proof.
  rewrite run_get.
  destruct (HttpClient._build_url self path params) as [url|e] eqn:E.
  - destruct (server (HttpClient.request self url)) as [resp|exc| |];
      try (left; exists url; reflexivity).
    right. cbn [fst snd]. eauto.
  - right. cbn [fst snd]. eauto.
Qed.

Lemma run_invoke_sent `{Builtins} (http : HttpClient.t) (c : api_call)
  (server : Request -> reply) :
  (exists url, fst (run (invoke http c) server) = [HttpClient.request http url])
  \/ (fst (run (invoke http c) server) = []
      /\ fst (snd (run (invoke http c) server)) = http
      /\ exists e, snd (snd (run (invoke http c) server)) = Raise e).
Proof.
  assert (G : forall before segment after params,
             (exists url, fst (run (get_at http before segment after params) server) =
                          [HttpClient.request http url])
             \/ (fst (run (get_at http before segment after params) server) = []
                 /\ fst (snd (run (get_at http before segment after params) server)) = http
                 /\ exists e,
                      snd (snd (run (get_at http before segment after params) server)) =
                      Raise e)).
  { intros. unfold get_at. destruct (_encode segment) as [s|e] eqn:E;
      [apply run_get_sent|].
    right. cbn [run fst snd]. eauto. }
  destruct c; cbn [invoke]; first [ apply G | apply run_get_sent ].
Qed.

(** X2. Every call of the public surface hands one request to [urlopen],
    or none. The one it hands over is a GET that carries
    [Authorization: Bearer] with the key of the client,
    [Accept: application/json] and the user agent of the library. When it
    hands over none, the call has raised, and the client is as it was. *)
Theorem X2_one_authenticated_get_per_call `{Builtins} :
  forall http c server,
    (exists url,
       fst (run (invoke http c) server) =
       [ {| full_url := url;
            method := lit "GET";
            req_headers :=
              [ (lit "Authorization", lit "Bearer " ++ HttpClient._api_key http);
                (lit "Accept", lit "application/json");
                (lit "User-Agent", lit "usecart-python/0.1.0") ] |} ])
    \/ (fst (run (invoke http c) server) = []
        /\ fst (snd (run (invoke http c) server)) = http
        /\ exists e, snd (snd (run (invoke http c) server)) = Raise e).
Proof.
  intros http c server.
  destruct (run_invoke_sent http c server) as [[url E]|E]; [left|now right].
  exists url. exact E.
Qed.

(** ** What a call changes *)

Lemma with_rate_limit_same (self : HttpClient.t) :
  with_rate_limit self (HttpClient.rate_limit self) = self.
Proof. now destruct self. Qed.

Lemma _parse_rate_limit_headers_readable `{Builtins} (resp : Response)
  (self : HttpClient.t) :
  readable_rate_limit_headers resp ->
  HttpClient._parse_rate_limit_headers resp self =
  (with_rate_limit self (cache_after (HttpClient.rate_limit self) resp), Return tt).
Proof.
  unfold readable_rate_limit_headers, cache_after.
  rewrite _parse_rate_limit_headers_eq.
  destruct (resp_headers resp (lit "X-RateLimit-Remaining")) as [remaining|];
    [|now rewrite with_rate_limit_same].
  destruct (resp_headers resp (lit "X-RateLimit-Limit")) as [limit|];
    [|now rewrite with_rate_limit_same].
  intros [Hr Hl]. destruct (int remaining); [|contradiction].
  destruct (int limit); [reflexivity | contradiction].
Qed.

Lemma run_get_failure `{Builtins} (self : HttpClient.t) (path : pystr)
  (params : option params_t) (server : Request -> reply) :
  (forall req, server req = Failure) ->
  fst (snd (run (HttpClient.get self path params) server)) = self.
Proof.
  intros Hs. rewrite run_get.
  destruct (HttpClient._build_url self path params) as [url|e]; [|reflexivity].
  now rewrite Hs.
Qed.

(** X3. A call changes nothing of the client but the cached rate limit:
    the key and the base URL after it are those before it, whatever the
    server answered; and when the request does not come back with a
    response, the cache too is as it was. *)
Theorem X3_call_changes_the_cache_only `{Builtins} :
  forall http c server,
    HttpClient._api_key (fst (snd (run (invoke http c) server))) =
      HttpClient._api_key http
    /\ HttpClient._base_url (fst (snd (run (invoke http c) server))) =
      HttpClient._base_url http
    /\ ((forall req, server req = Failure) ->
        fst (snd (run (invoke http c) server)) = http).
Proof.
  intros http c server. split; [|split].
  - assert (G : forall before segment after params,
               HttpClient._api_key
                 (fst (snd (run (get_at http before segment after params) server))) =
               HttpClient._api_key http).
    { intros. unfold get_at.
      destruct (_encode segment); [apply run_get_key | reflexivity]. }
    destruct c; cbn [invoke]; first [ apply G | apply run_get_key ].
  - apply run_invoke_base.
  - intros Hs.
    assert (G : forall before segment after params,
               fst (snd (run (get_at http before segment after params) server)) = http).
    { intros. unfold get_at.
      destruct (_encode segment); [now apply run_get_failure | reflexivity]. }
    destruct c; cbn [invoke]; first [ apply G | now apply run_get_failure ].
Qed.

Lemma X3_call_changes_the_cache_only_witness :
  fst (snd (run (@invoke ascii_builtins scenario_http (stores_get (lit "a.com")))
                (fun _ => Failure))) = scenario_http.
Proof.
  exact (proj2 (proj2 (@X3_call_changes_the_cache_only ascii_builtins scenario_http
                         (stores_get (lit "a.com")) (fun _ => Failure)))
           (fun _ => eq_refl)).
Defined.

(** ** Error responses, when they can be read *)

Lemma run_get_HTTPError `{Builtins} (self : HttpClient.t) (path : pystr)
  (params : option params_t) (url : pystr) (server : Request -> reply)
  (exc : Response) :
  HttpClient._build_url self path params = Return url ->
  server (HttpClient.request self url) = HTTPError exc ->
  readable_rate_limit_headers exc ->
  run (HttpClient.get self path params) server =
  ([HttpClient.request self url],
   (with_rate_limit self (cache_after (HttpClient.rate_limit self) exc),
    Raise (HttpClient._handle_error_response
             (with_rate_limit self (cache_after (HttpClient.rate_limit self) exc))
             exc))).
Proof.
  intros Eu Es Hr. rewrite run_get, Eu, Es.
  now rewrite (@_parse_rate_limit_headers_readable _ exc self Hr).
Qed.

(** X4. A 401 whose body [json.loads] reads, or refuses with
    [JSONDecodeError], and whose rate-limit headers can be read makes [get]
    raise [CartAuthError]: status 401, code [auth_error] whatever code the
    body gives, the message and request id of the error object of the body,
    or the fallback message and no request id when the body has none. *)
Theorem X4_unauthorized_raises_auth_error `{Builtins} :
  forall self path params url server exc,
    HttpClient._build_url self path params = Return url ->
    server (HttpClient.request self url) = HTTPError exc ->
    readable_rate_limit_headers exc ->
    resp_code exc = 401%Z ->
    json_read (resp_body exc) = true ->
    snd (snd (run (HttpClient.get self path params) server)) =
    Raise (CartError (Errors.Auth
      {| Errors.message := HttpClient.message (resolved 401 (resp_body exc));
         Errors.status := 401;
         Errors.code := JStr (lit "auth_error");
         Errors.request_id := HttpClient.request_id (resolved 401 (resp_body exc)) |})).
Proof.
  intros self path params url server exc Eu Es Hr Ec Hb.
  rewrite (@run_get_HTTPError _ self path params url server exc Eu Es Hr). cbn [snd].
  rewrite (@_handle_error_response_eq _ _ exc Hb), Ec. reflexivity.
Qed.

Lemma X4_unauthorized_raises_auth_error_witness :
  snd (snd (run (@HttpClient.get ascii_builtins scenario_http (lit "/account") None)
                (fun _ => HTTPError unauthorized))) =
  Raise (CartError (Errors.Auth
    {| Errors.message := JStr (lit "bad key");
       Errors.status := 401;
       Errors.code := JStr (lit "auth_error");
       Errors.request_id := JStr (lit "req_1") |})).
Proof.
  exact (@X4_unauthorized_raises_auth_error ascii_builtins scenario_http
           (lit "/account") None (lit "https://api.usecart.com/v1/account")
           (fun _ => HTTPError unauthorized) unauthorized
           eq_refl eq_refl I eq_refl eq_refl).
Defined.

(** X5. A 429 whose body [json.loads] reads, or refuses with
    [JSONDecodeError], whose rate-limit headers can be read and whose
    [Retry-After] is missing, empty or accepted by [int] makes [get]
    raise [CartRateLimitError]: status 429, code [rate_limit_exceeded], the
    message and request id of the body, the delay when the header gives
    one, and the limit and the remaining count of the cache as this very
    response left it: the values of its own headers when it has both, and
    otherwise those of an earlier response, or none. *)
Theorem X5_too_many_requests_raises_rate_limit_error `{Builtins} :
  forall self path params url server exc retry_after,
    HttpClient._build_url self path params = Return url ->
    server (HttpClient.request self url) = HTTPError exc ->
    readable_rate_limit_headers exc ->
    resp_code exc = 429%Z ->
    json_read (resp_body exc) = true ->
    match resp_headers exc (lit "Retry-After") with
    | Some (c :: h) => int (c :: h) = retry_after /\ retry_after <> None
    | _ => retry_after = None
    end ->
    snd (snd (run (HttpClient.get self path params) server)) =
    Raise (CartError (Errors.RateLimit
      {| Errors.message := HttpClient.message (resolved 429 (resp_body exc));
         Errors.status := 429;
         Errors.code := JStr (lit "rate_limit_exceeded");
         Errors.request_id := HttpClient.request_id (resolved 429 (resp_body exc)) |}
      retry_after
      (option_map RateLimitInfo.limit (cache_after (HttpClient.rate_limit self) exc))
      (option_map RateLimitInfo.remaining
         (cache_after (HttpClient.rate_limit self) exc)))).
Proof.
  intros self path params url server exc retry_after Eu Es Hr Ec Hb Hra.
  rewrite (@run_get_HTTPError _ self path params url server exc Eu Es Hr). cbn [snd].
  rewrite (@_handle_error_response_eq _ _ exc Hb), Ec. cbv zeta.
  change (429 =? 401)%Z with false. change (429 =? 429)%Z with true. cbv iota.
  cbn [with_rate_limit HttpClient.rate_limit].
  destruct (resp_headers exc (lit "Retry-After")) as [[|c h]|]; try now subst.
  destruct Hra as [<- Hn]. destruct (int (c :: h)); [reflexivity | contradiction].
Qed.

(** The theorem at work: a 429 that has no rate-limit header of its own,
    on a client whose cache holds an earlier response, reports that
    earlier response. *)
Lemma X5_too_many_requests_raises_rate_limit_error_witness :
  snd (snd (run (@HttpClient.get ascii_builtins
                   (with_rate_limit scenario_http (Some (RateLimitInfo.Make 7 100)))
                   (lit "/stores") None)
                (fun _ => HTTPError
                   {| resp_code := 429;
                      resp_headers := headers_of [ (lit "Retry-After", lit "30") ];
                      resp_body := NotJSON |}))) =
  Raise (CartError (Errors.RateLimit
    {| Errors.message := JStr (lit "Cart API error: 429");
       Errors.status := 429;
       Errors.code := JStr (lit "rate_limit_exceeded");
       Errors.request_id := JNull |}
    (Some 30%Z) (Some 100%Z) (Some 7%Z))).
Proof.
  apply (@X5_too_many_requests_raises_rate_limit_error ascii_builtins
           (with_rate_limit scenario_http (Some (RateLimitInfo.Make 7 100)))
           (lit "/stores") None (lit "https://api.usecart.com/v1/stores")
           (fun _ => HTTPError
              {| resp_code := 429;
                 resp_headers := headers_of [ (lit "Retry-After", lit "30") ];
                 resp_body := NotJSON |})
           {| resp_code := 429;
              resp_headers := headers_of [ (lit "Retry-After", lit "30") ];
              resp_body := NotJSON |}
           (Some 30%Z)).
  - reflexivity.
  - reflexivity.
  - exact I.
  - reflexivity.
  - reflexivity.
  - vm_compute. split; [reflexivity | discriminate].
Defined.

(** X6. Any other error status, with a body that [json.loads] reads, or
    refuses with [JSONDecodeError], and rate-limit headers that can be
    read, makes [get] raise the base [CartApiError]
    with the status of the response and the code, message and request id of
    the error object of the body, each with its fallback ([unknown_error],
    [Cart API error: <status>], none); all three are the fallbacks when the
    body is not JSON, is not an object, or has no error member that is an
    object with something in it. *)
Theorem X6_other_status_raises_base_error `{Builtins} :
  forall self path params url server exc,
    HttpClient._build_url self path params = Return url ->
    server (HttpClient.request self url) = HTTPError exc ->
    readable_rate_limit_headers exc ->
    resp_code exc <> 401%Z -> resp_code exc <> 429%Z ->
    json_read (resp_body exc) = true ->
    snd (snd (run (HttpClient.get self path params) server)) =
    Raise (CartError (Errors.Api
      {| Errors.message := HttpClient.message (resolved (resp_code exc) (resp_body exc));
         Errors.status := resp_code exc;
         Errors.code := HttpClient.code (resolved (resp_code exc) (resp_body exc));
         Errors.request_id :=
           HttpClient.request_id (resolved (resp_code exc) (resp_body exc)) |}))
    /\ (error_object (resp_body exc) = None ->
        resolved (resp_code exc) (resp_body exc) =
        HttpClient.Locals (JStr (lit "unknown_error"))
          (JStr (lit "Cart API error: " ++ str_int (resp_code exc))) JNull).
Proof.
  intros self path params url server exc Eu Es Hr H1 H2 Hb. split.
  - rewrite (@run_get_HTTPError _ self path params url server exc Eu Es Hr). cbn [snd].
    rewrite (@_handle_error_response_eq _ _ exc Hb). cbv zeta.
    destruct (Z.eqb_spec (resp_code exc) 401); [contradiction|].
    destruct (Z.eqb_spec (resp_code exc) 429); [contradiction|]. reflexivity.
  - unfold resolved. now intros ->.
Qed.

(** The theorem at work: a 404 whose error member is a text, not an
    object. *)
Lemma X6_other_status_raises_base_error_witness :
  snd (snd (run (@HttpClient.get ascii_builtins scenario_http (lit "/stores/x") None)
                (fun _ => HTTPError
                   {| resp_code := 404;
                      resp_headers := headers_of [];
                      resp_body :=
                        Parsed (JObject [ (lit "error", JStr (lit "not found")) ]) |}))) =
  Raise (CartError (Errors.Api
    {| Errors.message := JStr (lit "Cart API error: 404");
       Errors.status := 404;
       Errors.code := JStr (lit "unknown_error");
       Errors.request_id := JNull |})).
Proof.
  apply (@X6_other_status_raises_base_error ascii_builtins scenario_http
           (lit "/stores/x") None (lit "https://api.usecart.com/v1/stores/x")
           (fun _ => HTTPError
              {| resp_code := 404;
                 resp_headers := headers_of [];
                 resp_body :=
                   Parsed (JObject [ (lit "error", JStr (lit "not found")) ]) |})
           {| resp_code := 404;
              resp_headers := headers_of [];
              resp_body := Parsed (JObject [ (lit "error", JStr (lit "not found")) ]) |}).
  - reflexivity.
  - reflexivity.
  - exact I.
  - discriminate.
  - discriminate.
  - reflexivity.
Defined.

(** ** Which typed error, and from which reply *)

Lemma _handle_error_response_class `{Builtins} (self : HttpClient.t) (exc : Response)
  (e : Errors.t) :
  HttpClient._handle_error_response self exc = CartError e ->
  Errors.status (Errors.base e) = resp_code exc
  /\ match e with
     | Errors.Auth f =>
         resp_code exc = 401%Z /\ Errors.code f = JStr (lit "auth_error")
     | Errors.RateLimit f _ _ _ =>
         resp_code exc = 429%Z /\ Errors.code f = JStr (lit "rate_limit_exceeded")
     | Errors.Api f => resp_code exc <> 401%Z /\ resp_code exc <> 429%Z
     end.
Proof.
  destruct (json_read (resp_body exc)) eqn:Eb.
  2: { intros E. exfalso. revert E. now apply _handle_error_response_unread. }
  rewrite _handle_error_response_eq by assumption; cbv zeta;
    destruct (Z.eqb_spec (resp_code exc) 401) as [E1|E1];
    [ intros [= <-]; cbn; auto
    | destruct (Z.eqb_spec (resp_code exc) 429) as [E2|E2];
      [ destruct (resp_headers exc (lit "Retry-After")) as [[|c h]|];
        [ | destruct (int (c :: h)); [|discriminate] | ];
        intros [= <-]; cbn; auto
      | intros [= <-]; cbn; auto ] ].
Qed.

(** X7. A typed error tells the status it came from: whenever a call of
    [get] raises [CartApiError] or one of its subclasses, the server
    answered with an error status, the [status] attribute is that status,
    and the class follows from it alone: [CartAuthError] with code
    [auth_error] for 401, [CartRateLimitError] with code
    [rate_limit_exceeded] for 429, the base class for every other one. *)
Theorem X7_typed_error_carries_the_status `{Builtins} :
  forall self path params server e,
    snd (snd (run (HttpClient.get self path params) server)) = Raise (CartError e) ->
    exists url exc,
      HttpClient._build_url self path params = Return url
      /\ server (HttpClient.request self url) = HTTPError exc
      /\ Errors.status (Errors.base e) = resp_code exc
      /\ match e with
         | Errors.Auth f =>
             resp_code exc = 401%Z /\ Errors.code f = JStr (lit "auth_error")
         | Errors.RateLimit f _ _ _ =>
             resp_code exc = 429%Z /\ Errors.code f = JStr (lit "rate_limit_exceeded")
         | Errors.Api f => resp_code exc <> 401%Z /\ resp_code exc <> 429%Z
         end.
Proof.
  intros self path params server e. rewrite run_get.
  destruct (HttpClient._build_url self path params) as [url|e0] eqn:Eu; cbn [snd].
  2: { apply _build_url_Raise in Eu. subst e0. discriminate. }
  destruct (server (HttpClient.request self url)) as [resp|exc| |] eqn:Es.
  - rewrite _parse_rate_limit_headers_eq.
    destruct (resp_headers resp (lit "X-RateLimit-Remaining")) as [remaining|];
      [destruct (resp_headers resp (lit "X-RateLimit-Limit")) as [limit|];
         [destruct (int remaining); [destruct (int limit)|]|]|];
      cbn [snd]; try discriminate;
      (destruct (HttpClient.read_json resp) as [body|e1] eqn:Eb; cbn [bind];
       [ intros E; apply _parse_response_Raise in E; discriminate
       | unfold HttpClient.read_json in Eb; destruct (resp_body resp); congruence ]).
  - rewrite _parse_rate_limit_headers_eq.
    destruct (resp_headers exc (lit "X-RateLimit-Remaining")) as [remaining|];
      [destruct (resp_headers exc (lit "X-RateLimit-Limit")) as [limit|];
         [destruct (int remaining); [destruct (int limit)|]|]|];
      cbn [snd]; try discriminate;
      intros [= E]; apply _handle_error_response_class in E;
      exists url, exc; (split; [reflexivity|]); (split; [exact Es|]); exact E.
  - discriminate.
  - discriminate.
Qed.

Lemma X7_typed_error_carries_the_status_witness :
  exists url exc,
    HttpClient._build_url scenario_http (lit "/account") None = Return url
    /\ (fun _ : Request => HTTPError unauthorized)
         (HttpClient.request scenario_http url) = HTTPError exc
    /\ 401%Z = resp_code exc
    /\ (resp_code exc = 401%Z /\ JStr (lit "auth_error") = JStr (lit "auth_error")).
Proof.
  apply (@X7_typed_error_carries_the_status ascii_builtins scenario_http
           (lit "/account") None (fun _ => HTTPError unauthorized)
           (Errors.Auth
              {| Errors.message := JStr (lit "bad key");
                 Errors.status := 401;
                 Errors.code := JStr (lit "auth_error");
                 Errors.request_id := JStr (lit "req_1") |})).
  reflexivity.
Defined.

(** ** What each kind of reply leads to *)

(** X8. What [get] does follows the reply. A response that is a success
    is returned as the [ApiResponse] its body parses to, or an exception
    leaves that is no typed API error. An error status always raises and
    never returns. Anything else [urlopen] raises leaves as it is, the
    client untouched; and so does the [ValueError] of [Request], with no
    request handed to [urlopen]. *)
Theorem X8_outcome_by_reply `{Builtins} :
  forall self path params url server,
    HttpClient._build_url self path params = Return url ->
    match server (HttpClient.request self url) with
    | Success resp =>
        (forall err,
           snd (snd (run (HttpClient.get self path params) server)) <>
           Raise (CartError err))
        /\ (forall r,
              snd (snd (run (HttpClient.get self path params) server)) = Return r ->
              exists body,
                resp_body resp = Parsed body
                /\ HttpClient._parse_response body = Return r)
    | HTTPError exc =>
        exists e, snd (snd (run (HttpClient.get self path params) server)) = Raise e
    | Failure =>
        run (HttpClient.get self path params) server =
        ([HttpClient.request self url], (self, Raise TransportError))
    | Rejected =>
        run (HttpClient.get self path params) server =
        ([], (self, Raise (ValueError (UnknownUrlType url))))
    end.
Proof.
  intros self path params url server Eu. rewrite run_get, Eu. cbn [snd].
  destruct (server (HttpClient.request self url)) as [resp|exc| |];
    [| |reflexivity|reflexivity].
  - assert (G : forall self' : HttpClient.t,
               (forall err,
                  snd (self', body <- HttpClient.read_json resp ;;
                              HttpClient._parse_response body) <> Raise (CartError err))
               /\ (forall r,
                     snd (self', body <- HttpClient.read_json resp ;;
                                 HttpClient._parse_response body) = Return r ->
                     exists body,
                       resp_body resp = Parsed body
                       /\ HttpClient._parse_response body = Return r)).
    { intros self'. cbn [snd]. unfold HttpClient.read_json.
      destruct (resp_body resp) as [j| | | | |]; cbn [bind];
        try (split; [discriminate | intros r Hr; discriminate Hr]).
      split.
      - intros err E. apply _parse_response_Raise in E. discriminate E.
      - intros r Hr. exists j. split; [reflexivity | exact Hr]. }
    rewrite _parse_rate_limit_headers_eq.
    destruct (resp_headers resp (lit "X-RateLimit-Remaining")) as [remaining|];
      [|apply G].
    destruct (resp_headers resp (lit "X-RateLimit-Limit")) as [limit|]; [|apply G].
    destruct (int remaining) eqn:Er.
    + destruct (int limit) eqn:El; [apply G|].
      cbn [snd]. split; [discriminate | intros r Hr; discriminate Hr].
    + cbn [snd]. split; [discriminate | intros r Hr; discriminate Hr].
  - destruct (HttpClient._parse_rate_limit_headers exc self) as [self' [[]|e]];
      eexists; reflexivity.
Qed.

Lemma X8_outcome_by_reply_witness :
  exists e,
    snd (snd (run (@HttpClient.get ascii_builtins scenario_http (lit "/account") None)
                  (fun _ => HTTPError too_many_requests))) = Raise e.
Proof.
  apply (@X8_outcome_by_reply ascii_builtins scenario_http (lit "/account") None
           (lit "https://api.usecart.com/v1/account")
           (fun _ => HTTPError too_many_requests)).
  reflexivity.
Defined.

(** ** Rate-limit headers that cannot be read *)

(** X9. When a response has both rate-limit headers and [int] refuses one
    of them, [get] raises the [ValueError] of [int] on the first one it
    refuses, [X-RateLimit-Remaining] being converted before
    [X-RateLimit-Limit], and nothing else happens: a successful body is not
    returned, an error status is not turned into a typed error, and the
    client is as it was. *)
Theorem X9_unreadable_rate_limit_headers `{Builtins} :
  forall self path params url server resp remaining limit,
    HttpClient._build_url self path params = Return url ->
    server (HttpClient.request self url) = Success resp
    \/ server (HttpClient.request self url) = HTTPError resp ->
    resp_headers resp (lit "X-RateLimit-Remaining") = Some remaining ->
    resp_headers resp (lit "X-RateLimit-Limit") = Some limit ->
    int remaining = None \/ int limit = None ->
    run (HttpClient.get self path params) server =
    ([HttpClient.request self url],
     (self,
      Raise (IntValueError
               match int remaining with
               | None => remaining
               | Some _ => limit
               end))).
Proof.
  intros self path params url server resp remaining limit Eu Es Er El Hn.
  rewrite run_get, Eu.
  assert (G : HttpClient._parse_rate_limit_headers resp self =
              (self, Raise (IntValueError
                              match int remaining with
                              | None => remaining
                              | Some _ => limit
                              end))).
  { rewrite _parse_rate_limit_headers_eq, Er, El.
    destruct (int remaining) as [r|]; [|reflexivity].
    destruct (int limit) as [l|]; [|reflexivity].
    destruct Hn; discriminate. }
  destruct Es as [-> | ->]; now rewrite G.
Qed.

(** The theorem at work: both headers are there and neither is an
    integer; the one reported is [X-RateLimit-Remaining]. *)
Lemma X9_unreadable_rate_limit_headers_witness :
  run (@HttpClient.get ascii_builtins scenario_http (lit "/account") None)
      (fun _ => Success
         {| resp_code := 200;
            resp_headers :=
              headers_of [ (lit "X-RateLimit-Limit", lit "plenty");
                           (lit "X-RateLimit-Remaining", lit "many") ];
            resp_body := Parsed (JObject []) |}) =
  ([HttpClient.request scenario_http (lit "https://api.usecart.com/v1/account")],
   (scenario_http, Raise (IntValueError (lit "many")))).
Proof.
  apply (@X9_unreadable_rate_limit_headers ascii_builtins scenario_http
           (lit "/account") None (lit "https://api.usecart.com/v1/account")
           (fun _ => Success
              {| resp_code := 200;
                 resp_headers :=
                   headers_of [ (lit "X-RateLimit-Limit", lit "plenty");
                                (lit "X-RateLimit-Remaining", lit "many") ];
                 resp_body := Parsed (JObject []) |})
           {| resp_code := 200;
              resp_headers :=
                headers_of [ (lit "X-RateLimit-Limit", lit "plenty");
                             (lit "X-RateLimit-Remaining", lit "many") ];
              resp_body := Parsed (JObject []) |}
           (lit "many") (lit "plenty")).
  - reflexivity.
  - left. reflexivity.
  - reflexivity.
  - reflexivity.
  - left. reflexivity.
Defined.

(** ** The facade *)

Lemma invoke_is_get `{Builtins} (http : HttpClient.t) (c : api_call) :
  (exists path params, invoke http c = HttpClient.get http path params)
  \/ invoke http c = Done (http, Raise UnicodeEncodeError).
Proof.
  assert (G : forall before segment after params,
             (exists path params',
                get_at http before segment after params =
                HttpClient.get http path params')
             \/ get_at http before segment after params =
                Done (http, Raise UnicodeEncodeError)).
  { intros. unfold get_at. destruct (_encode segment) as [s|e] eqn:E.
    - left. eauto.
    - apply quote_Raise in E. destruct E as [-> _]. now right. }
  destruct c; cbn [invoke]; first [ apply G | left; eexists; eexists; reflexivity ].
Qed.

Lemma run_get_cache `{Builtins} (self : HttpClient.t) (path : pystr)
  (params : option params_t) (url : pystr) (server : Request -> reply)
  (resp : Response) :
  sent_url (HttpClient.get self path params) = Some url ->
  server (HttpClient.request self url) = Success resp
  \/ server (HttpClient.request self url) = HTTPError resp ->
  HttpClient.rate_limit (fst (snd (run (HttpClient.get self path params) server))) =
  cache_after (HttpClient.rate_limit self) resp.
Proof.
  rewrite sent_url_get.
  destruct (HttpClient._build_url self path params) as [u|] eqn:Eu; [|discriminate].
  intros [= ->] Es. rewrite run_get, Eu. cbn [snd].
  pose proof (_parse_rate_limit_headers_state resp self) as (_ & _ & Hc).
  destruct Es as [-> | ->];
    destruct (HttpClient._parse_rate_limit_headers resp self) as [self' [[]|e]];
    exact Hc.
Qed.

(** X16. A client made with a key holds that key, the base URL given
    without its trailing slashes (the default one when none is given) and
    no rate limit; and after its first call, whichever it is, that came
    back with a response, its [rate_limit] is that of the headers of this
    response when both are there and are integers, and still none
    otherwise. *)
Theorem X16_new_client_and_its_first_call `{Builtins} :
  forall api_key base_url cart call server url resp,
    Cart.__init__ api_key base_url = Done (Return cart) ->
    sent_url (invoke (Cart._http cart) call) = Some url ->
    server (HttpClient.request (Cart._http cart) url) = Success resp
    \/ server (HttpClient.request (Cart._http cart) url) = HTTPError resp ->
    Some (HttpClient._api_key (Cart._http cart)) = api_key
    /\ HttpClient._base_url (Cart._http cart) =
       match base_url with
       | Some u => rstrip_slash u
       | None => lit "https://api.usecart.com/v1"
       end
    /\ Cart.rate_limit cart = None
    /\ Cart.rate_limit
         (Cart.Make (fst (snd (run (invoke (Cart._http cart) call) server)))) =
       cache_after None resp.
Proof.
  intros api_key base_url cart call server url resp Ec Eu Es.
  destruct api_key as [[|c key]|]; try discriminate Ec.
  cbn [Cart.__init__] in Ec. injection Ec as <-. cbn [Cart._http] in *.
  split; [reflexivity|]. split; [now destruct base_url|]. split; [reflexivity|].
  unfold Cart.rate_limit. cbn [Cart._http].
  destruct (invoke_is_get
              (HttpClient.__init__ (c :: key)
                 match base_url with Some u => u | None => _DEFAULT_BASE_URL end) call)
    as [(path & params & E)|E]; rewrite E in *.
  - now apply run_get_cache with (url := url).
  - discriminate Eu.
Qed.

Lemma X16_new_client_and_its_first_call_witness :
  Some (lit "cart_sk_test") = Some (lit "cart_sk_test")
  /\ lit "https://example.test/v1" = lit "https://example.test/v1"
  /\ @None RateLimitInfo.t = None
  /\ Cart.rate_limit
       (Cart.Make
          (fst (snd (run (@invoke ascii_builtins
                            (HttpClient.__init__ (lit "cart_sk_test")
                               (lit "https://example.test/v1//"))
                            client_account)
                         (fun _ => Success
                            {| resp_code := 200;
                               resp_headers :=
                                 headers_of [ (lit "X-RateLimit-Limit", lit "50");
                                              (lit "X-RateLimit-Remaining", lit "3") ];
                               resp_body := Parsed (JObject []) |}))))) =
     Some (RateLimitInfo.Make 3 50).
Proof.
  apply (@X16_new_client_and_its_first_call ascii_builtins
           (Some (lit "cart_sk_test")) (Some (lit "https://example.test/v1//"))
           (Cart.Make (HttpClient.__init__ (lit "cart_sk_test")
                         (lit "https://example.test/v1//")))
           client_account
           (fun _ => Success
              {| resp_code := 200;
                 resp_headers :=
                   headers_of [ (lit "X-RateLimit-Limit", lit "50");
                                (lit "X-RateLimit-Remaining", lit "3") ];
                 resp_body := Parsed (JObject []) |})
           (lit "https://example.test/v1/account")
           {| resp_code := 200;
              resp_headers :=
                headers_of [ (lit "X-RateLimit-Limit", lit "50");
                             (lit "X-RateLimit-Remaining", lit "3") ];
              resp_body := Parsed (JObject []) |}).
  - reflexivity.
  - reflexivity.
  - left. reflexivity.
Defined.

(** ** Reading a query string back *)

Lemma split_none (sep : codepoint) (p : pystr) :
  occurrences sep p = 0%nat -> split sep p = [p].
Proof.
  unfold occurrences. induction p as [|x p IH]; [reflexivity|].
  cbn [filter split]. rewrite (N.eqb_sym x sep).
  destruct (sep =? x); [discriminate|]. intros H. now rewrite (IH H).
Qed.

Lemma split_app (sep : codepoint) (p rest : pystr) :
  occurrences sep p = 0%nat ->
  split sep (p ++ sep :: rest) = p :: split sep rest.
Proof.
  unfold occurrences. induction p as [|x p IH].
  - intros _. cbn [app split]. now rewrite N.eqb_refl.
  - cbn [filter app split]. rewrite (N.eqb_sym x sep).
    destruct (sep =? x); [discriminate|]. intros H. now rewrite (IH H).
Qed.

Lemma split_join (sep : codepoint) (p : pystr) (parts : list pystr) :
  Forall (fun p => occurrences sep p = 0%nat) (p :: parts) ->
  split sep (join [sep] (p :: parts)) = p :: parts.
Proof.
  revert p. induction parts as [|p' parts IH]; intros p H.
  - inversion H; subst. now apply split_none.
  - inversion H as [|? ? Hp Hrest]; subst.
    change (join [sep] (p :: p' :: parts))
      with (p ++ sep :: join [sep] (p' :: parts)).
    now rewrite (split_app sep p _ Hp), (IH _ Hrest).
Qed.

Lemma partition_app (sep : codepoint) (k t : pystr) :
  occurrences sep k = 0%nat -> partition sep (k ++ sep :: t) = (k, t).
Proof.
  unfold occurrences. induction k as [|x k IH].
  - intros _. cbn [app partition]. now rewrite N.eqb_refl.
  - cbn [filter app partition]. rewrite (N.eqb_sym x sep).
    destruct (sep =? x); [discriminate|]. intros H. now rewrite (IH H).
Qed.

Lemma bytes_of_quote (s safe t : pystr) :
  mem 37 safe = false -> quote s safe = Return t -> unquote_to_bytes t = bytes_of s.
Proof.
  intros Hs E. apply unquote_quote in E; [|exact Hs].
  unfold bytes_of. now rewrite E.
Qed.

Lemma wire_values_encoded (v : value) (t : pystr) :
  encoded_value v t -> map unquote_to_bytes (split 44 t) = wire_values v.
Proof.
  destruct v as [[|b|n|r|s]|vs]; cbn [encoded_value wire_values].
  1, 3, 4, 5: intros [E Hp];
    rewrite (split_none 44 _ (commas_none _ (plain_weaken _ Hp)));
    cbn [map]; now rewrite (@bytes_of_quote _ [] _ eq_refl E).
  - intros ->. now destruct b.
  - intros (elems & -> & Hall). destruct Hall as [|a e vs elems [Ea He] Hall].
    + reflexivity.
    + change (lit ",") with [44]. rewrite split_join.
      * cbn [map]. rewrite (@bytes_of_quote _ [] _ eq_refl Ea). f_equal.
        clear -Hall. induction Hall as [|a' e' vs elems [Ea' _] _ IH];
          [reflexivity|].
        cbn [map]. now rewrite (@bytes_of_quote _ [] _ eq_refl Ea'), IH.
      * constructor; [apply (commas_none _ (plain_weaken _ He))|].
        clear -Hall. induction Hall as [|a' e' vs elems [_ He'] _ IH];
          constructor; [apply (commas_none _ (plain_weaken _ He')) | exact IH].
Qed.

Lemma parse_entry (kv : pystr * value) (part : pystr) :
  encoded_entry kv part ->
  (let (k, v) := partition 61 part in
   (unquote_to_bytes k, map unquote_to_bytes (split 44 v))) = wire_entry kv.
Proof.
  intros (k & t & -> & Ek & Hk & Hv). change (lit "=") with [61]. cbn [app].
  rewrite partition_app
    by (apply occurrences_quiet; [reflexivity | now apply quiet_plain_or_slash]).
  unfold wire_entry.
  now rewrite (@bytes_of_quote _ safe_default _ eq_refl Ek), (@wire_values_encoded _ _ Hv).
Qed.

(** X19. The query string reads back as what was given: cut at the
    ampersands, each part at its first equals sign and each value at its
    commas, with the escapes undone, it gives, in order, the UTF-8 bytes of
    the key of every entry that is present and those of its value ([true]
    or [false] for a boolean) or of each element of its list. Only an empty
    list does not come back: it reads as one empty value. *)
Theorem X19_query_reads_back :
  forall self path params url,
    HttpClient._build_url self path (Some params) = Return url ->
    filter is_present params <> [] ->
    exists q,
      url = (HttpClient._base_url self ++ path) ++ lit "?" ++ q
      /\ parse_query q = map wire_entry (filter is_present params).
Proof.
  intros self path params url E Hne.
  rewrite _build_url_described in E. unfold described_url in E.
  apply bind_Return_inv in E. destruct E as (parts & Ep & E).
  assert (Hall : Forall2 encoded_entry (filter is_present params) parts).
  { apply traverse_Forall2 in Ep. revert Ep.
    apply Forall2_impl. exact described_entry_encoded. }
  destruct parts as [|p ps].
  { inversion Hall as [E0|]. now symmetry in E0. }
  injection E as <-. exists (join (lit "&") (p :: ps)). split; [reflexivity|].
  unfold parse_query. change (lit "&") with [38]. rewrite split_join.
  - clear -Hall. induction Hall as [|kv part kvs parts' Hkv _ IH]; [reflexivity|].
    cbn [map]. now rewrite (@parse_entry _ _ Hkv), IH.
  - clear -Hall. induction Hall as [|kv part kvs parts' Hkv _ IH]; constructor;
      [|exact IH].
    now rewrite (@occurrences_encoded_entry 38 _ _ eq_refl Hkv).
Qed.

Lemma X19_query_reads_back_witness :
  exists q,
    lit "https://api.usecart.com/v1/stores?k%26x%3D1=a%3Fb%23c&domains=p.com,q%2Cr" =
      (HttpClient._base_url scenario_http ++ lit "/stores") ++ lit "?" ++ q
    /\ parse_query q =
       [ (lit "k&x=1", [lit "a?b#c"]); (lit "domains", [lit "p.com"; lit "q,r"]) ].
Proof.
  apply (X19_query_reads_back scenario_http (lit "/stores")
           [ (lit "k&x=1", Atom (AStr (lit "a?b#c")));
             (lit "skip", Atom ANone);
             (lit "domains", VList [AStr (lit "p.com"); AStr (lit "q,r")]) ]).
  - reflexivity.
  - discriminate.
Defined.

(** ** The path of each call *)

Lemma sent_url_get_shape `{Builtins} (http : HttpClient.t) (path : pystr)
  (params : option params_t) (url : pystr) :
  sent_url (HttpClient.get http path params) = Some url ->
  exists query,
    url = (HttpClient._base_url http ++ path) ++ query
    /\ (query = [] \/ exists q, query = lit "?" ++ q).
Proof.
  rewrite sent_url_get.
  destruct (HttpClient._build_url http path params) as [u|] eqn:E; [|discriminate].
  intros [= <-]. now apply _build_url_shape in E.
Qed.

(** X17. Each call that takes no path segment asks for the path its
    docstring names, whatever its arguments: the URL is the base URL, that
    path, and then nothing or a question mark and the query. *)
Theorem X17_documented_path `{Builtins} :
  forall http c path url,
    fixed_path c = Some path ->
    sent_url (invoke http c) = Some url ->
    exists query,
      url = (HttpClient._base_url http ++ path) ++ query
      /\ (query = [] \/ exists q, query = lit "?" ++ q).
Proof.
  intros http c path url.
  destruct c; cbn [fixed_path]; intros Hc; try discriminate Hc;
    injection Hc as <-; apply sent_url_get_shape.
Qed.

Lemma X17_documented_path_witness :
  exists query,
    lit "https://api.usecart.com/v1/suppliers?keyword=a%2Fb&page=2" =
      (HttpClient._base_url scenario_http ++ lit "/suppliers") ++ query
    /\ (query = [] \/ exists q, query = lit "?" ++ q).
Proof.
  apply (@X17_documented_path ascii_builtins scenario_http
           (suppliers_search (Some (lit "a/b")) (Some 2%Z) None None None None)
           (lit "/suppliers")
           (lit "https://api.usecart.com/v1/suppliers?keyword=a%2Fb&page=2")).
  - reflexivity.
  - reflexivity.
Defined.
